(** * Anti-detection and rate-governed session layer

    A shallow embedding of [src/utils/global-setup.ts] (anti-detection
    helpers, [RateLimiter], response monitoring, session loading) and of
    [randomDelay] from [src/utils/browser-utils.ts].

    Asynchronous functions are embedded in a state-and-exception monad over
    a [World] that holds the wall clock, the stream of [Math.random()]
    results, the lateness of timers, the page under automation, the
    filesystem, the mutable JavaScript cells the code closes over, and the
    log of effects performed so far.  An [await] is sequencing: one flow of
    control runs at a time.  The response listener, which the page calls
    and does not await, is also given turn by turn ([monitor]), with the
    calls that sleep through a cooldown overtaken by later ones.

    Numbers: [Date.now()] and all delays are integers and are kept in [Z];
    results of [Math.random()] and pointer coordinates are exact rationals
    ([Q]) standing for the doubles of the source. *)

From Stdlib Require Import ZArith QArith Qround Lia Lqa.
From stdpp Require Import base option list strings gmap.

Local Open Scope Z_scope.

(** ** Effects, errors and outcomes *)

(** What the code does to the outside world.  [Rejected e] records an input
    action that was attempted and failed. *)
Inductive Event : Type :=
  | MouseMove (x y : Q) (steps : Z)
  | MouseWheel (dx dy : Q)
  | MouseClick (x y : Q)
  | KeyPress (key : string)
  | Sleep (ms : Z)
  | ConsoleLog (msg : string)
  | ConsoleWarn (msg : string)
  | ConsoleError (msg : string)
  | Rejected (attempt : Event).

Inductive JsError : Type :=
  | TargetClosed
  | TypeError
  | SyntaxError
  | FsError
  | Error (msg : string).

Inductive Outcome (A : Type) : Type :=
  | Ret (a : A)
  | Throw (e : JsError).
Arguments Ret {A} a.
Arguments Throw {A} e.

(** Values of type [any], as [JSON.parse] produces them. *)
#[local] Unset Elimination Schemes.
Inductive JsValue : Type :=
  | JsNull
  | JsBool (b : bool)
  | JsNumber (q : Q)
  | JsString (s : string)
  | JsArray (items : list JsValue)
  | JsObject (fields : list (string * JsValue)).
#[local] Set Elimination Schemes.

(** A path that [existsSync] reports: a readable file, or something that
    makes [readFileSync] throw (a directory, a file without permission). *)
Inductive FsNode : Type :=
  | RegularFile (content : string)
  | Unreadable.

(** The fields of a [RateLimiter] instance that change.  [resetInterval]
    and [maxRequests] are read-only and given below; [resetTimer] is never
    assigned or read. *)
Record RateLimiter : Type := mkRateLimiter {
  lastRequestTime : Z;
  requestCount : Z
}.

Definition resetInterval : Z := 60000.
Definition maxRequests : Z := 30.

(** [new RateLimiter()] *)
Definition new_RateLimiter : RateLimiter :=
  {| lastRequestTime := 0; requestCount := 0 |}.

Record World : Type := mkWorld {
  clock : Z;                          (* wall clock, milliseconds *)
  rand : nat -> Q;                    (* k-th result of Math.random() *)
  rand_ix : nat;                      (* results consumed so far *)
  late : nat -> nat;                  (* time that passes, unasked, at the
                                         k-th clock observation or timer *)
  late_ix : nat;
  viewport : option (Z * Z);          (* page.viewportSize(): width, height *)
  page_fault : nat -> bool;           (* does the k-th input action reject? *)
  page_ix : nat;
  node_fs : option (gmap string FsNode); (* import('fs'), when it resolves *)
  limiter : RateLimiter;              (* the RateLimiter instance in use *)
  blockedRequests : Z;                (* the cell closed over by the monitor *)
  events : list Event                 (* effects so far, newest first *)
}.

(** [Math.random()] returns a number in [0, 1). *)
Definition unit_interval (r : Q) : Prop := (0 <= r)%Q /\ (r < 1)%Q.

Definition fair (w : World) : Prop := forall k, unit_interval (rand w k).

(** ** The monad *)

Definition M (A : Type) : Type := World -> Outcome A * World.

Definition ret {A} (a : A) : M A := fun w => (Ret a, w).

Definition throw {A} (e : JsError) : M A := fun w => (Throw e, w).

Definition bind {A B} (m : M A) (k : A -> M B) : M B :=
  fun w =>
    match m w with
    | (Ret a, w') => k a w'
    | (Throw e, w') => (Throw e, w')
    end.

(** [try { body } catch (error) { handler }] *)
Definition try_catch {A} (body : M A) (handler : JsError -> M A) : M A :=
  fun w =>
    match body w with
    | (Ret a, w') => (Ret a, w')
    | (Throw e, w') => handler e w'
    end.

Declare Scope js_scope.
Delimit Scope js_scope with js.
Notation "x <- m ;; k" := (bind m (fun x => k))
  (at level 100, m at next level, right associativity) : js_scope.
Notation "m ;;; k" := (bind m (fun _ => k))
  (at level 100, right associativity) : js_scope.
Local Open Scope js_scope.

(** [for (let i = 0; i < n; i++) body] *)
Fixpoint repeatM (n : nat) (body : M unit) : M unit :=
  match n with
  | O => ret tt
  | S n' => body ;;; repeatM n' body
  end.

(** A loop that pushes one computed element per round. *)
Fixpoint collectM {A} (n : nat) (item : M A) : M (list A) :=
  match n with
  | O => ret []
  | S n' => a <- item ;; rest <- collectM n' item ;; ret (a :: rest)
  end.

(** [for (const x of xs) body(x)] *)
Fixpoint forM {A} (xs : list A) (body : A -> M unit) : M unit :=
  match xs with
  | [] => ret tt
  | x :: xs' => body x ;;; forM xs' body
  end.

(** ** Primitives of the host *)

Definition emit (e : Event) : M unit :=
  fun w =>
    (Ret tt,
     mkWorld (clock w) (rand w) (rand_ix w) (late w) (late_ix w) (viewport w)
       (page_fault w) (page_ix w) (node_fs w) (limiter w) (blockedRequests w)
       (e :: events w)).

(** Real time moves on by the next amount of the [late] stream. *)
Definition elapse (ms : Z) : M unit :=
  fun w =>
    (Ret tt,
     mkWorld (clock w + ms + Z.of_nat (late w (late_ix w))) (rand w)
       (rand_ix w) (late w) (S (late_ix w)) (viewport w) (page_fault w)
       (page_ix w) (node_fs w) (limiter w) (blockedRequests w) (events w)).

(** [Date.now()] *)
Definition Date_now : M Z :=
  elapse 0 ;;; (fun w => (Ret (clock w), w)).

(** The least time a timer set for [ms] takes.  A timer fires no earlier
    than asked, except that the host replaces a delay above [2^31 - 1] by a
    delay of 1, for which nothing is promised here. *)
Definition timer_wait (ms : Z) : Z :=
  if ms >? 2147483647 then 0 else Z.max 0 ms.

(** [await new Promise(resolve => setTimeout(resolve, ms))] *)
Definition sleep (ms : Z) : M unit :=
  emit (Sleep ms) ;;; elapse (timer_wait ms).

(** [Math.random()] *)
Definition Math_random : M Q :=
  fun w =>
    (Ret (rand w (rand_ix w)),
     mkWorld (clock w) (rand w) (S (rand_ix w)) (late w) (late_ix w)
       (viewport w) (page_fault w) (page_ix w) (node_fs w) (limiter w)
       (blockedRequests w) (events w)).

(** [Math.floor] *)
Definition Math_floor (q : Q) : Z := Qfloor q.

(** [page.viewportSize()] *)
Definition page_viewportSize : M (option (Z * Z)) :=
  fun w => (Ret (viewport w), w).

(** An input action on the page: it is performed, or it rejects because the
    page, context or browser has been closed. *)
Definition page_action (e : Event) : M unit :=
  fun w =>
    let w' :=
      mkWorld (clock w) (rand w) (rand_ix w) (late w) (late_ix w)
        (viewport w) (page_fault w) (S (page_ix w)) (node_fs w) (limiter w)
        (blockedRequests w)
        ((if page_fault w (page_ix w) then Rejected e else e) :: events w) in
    if page_fault w (page_ix w) then (Throw TargetClosed, w') else (Ret tt, w').

Definition get_limiter : M RateLimiter :=
  fun w => (Ret (limiter w), w).

Definition set_limiter (l : RateLimiter) : M unit :=
  fun w =>
    (Ret tt,
     mkWorld (clock w) (rand w) (rand_ix w) (late w) (late_ix w) (viewport w)
       (page_fault w) (page_ix w) (node_fs w) l (blockedRequests w)
       (events w)).

Definition get_blockedRequests : M Z :=
  fun w => (Ret (blockedRequests w), w).

Definition set_blockedRequests (n : Z) : M unit :=
  fun w =>
    (Ret tt,
     mkWorld (clock w) (rand w) (rand_ix w) (late w) (late_ix w) (viewport w)
       (page_fault w) (page_ix w) (node_fs w) (limiter w) n (events w)).

(** ** browser-utils.ts *)

(** [randomDelay(min, max)]:
    [delay = Math.floor(Math.random() * (max - min + 1)) + min]. *)
Definition randomDelay (min max : Z) : M unit :=
  r <- Math_random ;;
  let delay := Math_floor (r * inject_Z (max - min + 1)) + min in
  sleep delay.

(** ** global-setup.ts: RateLimiter *)

(** "Reset counter if interval has passed" *)
Definition reset_if_interval_passed (now : Z) : M unit :=
  this <- get_limiter ;;
  if now - lastRequestTime this >? resetInterval
  then set_limiter (mkRateLimiter (lastRequestTime this) 0)
  else ret tt.

(** "Check if we've hit the limit".  The logged text also carries the
    seconds to wait, [Math.ceil(waitTime / 1000)], left out here. *)
Definition wait_if_limit_hit (now : Z) : M unit :=
  this <- get_limiter ;;
  if requestCount this >=? maxRequests
  then
    let waitTime := resetInterval - (now - lastRequestTime this) in
    emit (ConsoleLog "Rate limit reached. Waiting") ;;;
    sleep waitTime ;;;
    this' <- get_limiter ;;
    set_limiter (mkRateLimiter (lastRequestTime this') 0)
  else ret tt.

(** "Add natural delay between requests" *)
Definition natural_delay (now : Z) : M unit :=
  this <- get_limiter ;;
  let timeSinceLastRequest := now - lastRequestTime this in
  if timeSinceLastRequest <? 2000
  then randomDelay (2000 - timeSinceLastRequest) 4000
  else ret tt.

(** [this.lastRequestTime = Date.now(); this.requestCount++;] *)
Definition record_request : M unit :=
  t <- Date_now ;;
  this <- get_limiter ;;
  set_limiter (mkRateLimiter t (requestCount this + 1)).

(** [RateLimiter.waitIfNeeded()] *)
Definition waitIfNeeded : M unit :=
  now <- Date_now ;;
  reset_if_interval_passed now ;;;
  wait_if_limit_hit now ;;;
  natural_delay now ;;;
  record_request.

(** [n] calls, each awaited before the next; the result lists the clock at
    which each call returned, in call order. *)
Fixpoint serial_calls (n : nat) : M (list Z) :=
  match n with
  | O => ret []
  | S n' =>
      waitIfNeeded ;;;
      t <- (fun w => (Ret (clock w), w)) ;;
      rest <- serial_calls n' ;;
      ret (t :: rest)
  end.

(** How many of the instants [ts] fall in the window [t, t + 60000]. *)
Definition in_window (t : Z) (ts : list Z) : nat :=
  length (filter (fun x => t <= x <= t + resetInterval) ts).

(** ** global-setup.ts: behaviour simulation *)

(** [page.mouse.move], [page.mouse.wheel], [page.mouse.click],
    [page.keyboard.press] *)
Definition page_mouse_move (x y : Q) (steps : Z) : M unit :=
  page_action (MouseMove x y steps).
Definition page_mouse_wheel (dx dy : Q) : M unit :=
  page_action (MouseWheel dx dy).
Definition page_mouse_click (x y : Q) : M unit :=
  page_action (MouseClick x y).
Definition page_keyboard_press (key : string) : M unit :=
  page_action (KeyPress key).

(** [Math.floor(Math.random() * size * 0.8) + size * 0.1] *)
Definition central_coordinate (size : Z) : M Q :=
  r <- Math_random ;;
  ret (inject_Z (Math_floor (r * inject_Z size * (8 # 10)))
       + inject_Z size * (1 # 10))%Q.

(** [simulateMouseMovement(page)] *)
Definition simulateMouseMovement : M unit :=
  viewport <- page_viewportSize ;;
  match viewport with
  | None => ret tt
  | Some (width, height) =>
      r <- Math_random ;;
      let numPoints := 3 + Math_floor (r * 3) in
      points <- collectM (Z.to_nat numPoints)
                  (x <- central_coordinate width ;;
                   y <- central_coordinate height ;;
                   ret (x, y)) ;;
      forM points (fun point =>
        r <- Math_random ;;
        page_mouse_move (fst point) (snd point) (10 + Math_floor (r * 10)) ;;;
        randomDelay 100 300)
  end.

(** [humanScroll(page)] *)
Definition humanScroll : M unit :=
  r <- Math_random ;;
  let scrolls := 2 + Math_floor (r * 3) in
  repeatM (Z.to_nat scrolls)
    (r <- Math_random ;;
     let scrollAmount := 100 + Math_floor (r * 300) in
     page_mouse_wheel 0 (inject_Z scrollAmount) ;;;
     randomDelay 500 1500 ;;;
     r <- Math_random ;;
     if Qlt_le_dec (7 # 10) r
     then page_mouse_wheel 0 (- inject_Z scrollAmount / 2)%Q ;;;
          randomDelay 300 800
     else ret tt).

(** [xs[i]] for a number [i]: [undefined] out of range. *)
Definition js_index {A} (xs : list A) (i : Z) : option A :=
  if i <? 0 then None else xs !! Z.to_nat i.

(** The fifth entry of [actions]: "Random click on page". *)
Definition random_click : M unit :=
  viewport <- page_viewportSize ;;
  match viewport with
  | Some (width, height) =>
      x <- central_coordinate width ;;
      y <- central_coordinate height ;;
      page_mouse_click x y
  | None => ret tt
  end.

Definition actions : list (M unit) :=
  [ simulateMouseMovement;
    humanScroll;
    page_keyboard_press "Tab";
    page_keyboard_press "Escape";
    random_click ].

(** [simulateRealisticBehavior(page)]; calling [undefined] is a
    [TypeError]. *)
Definition simulateRealisticBehavior : M unit :=
  r <- Math_random ;;
  let numActions := 1 + Math_floor (r * 3) in
  repeatM (Z.to_nat numActions)
    (r <- Math_random ;;
     match js_index actions (Math_floor (r * inject_Z (Z.of_nat (length actions)))) with
     | Some action => action
     | None => throw TypeError
     end ;;;
     randomDelay 500 2000).

(** The click events of a log, attempted ones included. *)
Fixpoint is_click (e : Event) : bool :=
  match e with
  | MouseClick _ _ => true
  | Rejected e' => is_click e'
  | _ => false
  end.

Definition clicks (log : list Event) : list Event :=
  List.filter is_click log.

(** ** global-setup.ts: fingerprint getters installed by
       [setupRealisticFingerprint] *)

Record Screen : Type := mkScreen { width : Z; height : Z }.

(** [get: () => screen.width - Math.floor(Math.random() * 10)] *)
Definition get_availWidth (screen : Screen) : M Z :=
  r <- Math_random ;;
  ret (width screen - Math_floor (r * 10)).

(** [get: () => screen.height - Math.floor(Math.random() * 40) - 40] *)
Definition get_availHeight (screen : Screen) : M Z :=
  r <- Math_random ;;
  ret (height screen - Math_floor (r * 40) - 40).

(** [get: () => [2, 4, 8, 16][Math.floor(Math.random() * 4)]];
    [None] is [undefined]. *)
Definition get_hardwareConcurrency : M (option Z) :=
  r <- Math_random ;;
  ret (js_index [2; 4; 8; 16] (Math_floor (r * 4))).

(** Two reads of one property, one after the other. *)
Definition read_twice {A} (getter : M A) : M (A * A) :=
  a <- getter ;;
  b <- getter ;;
  ret (a, b).

(** ** global-setup.ts: response monitoring *)

Record Response : Type := mkResponse { status : Z; url : string }.

(** [s.includes(needle)] *)
Fixpoint includes (s needle : string) : bool :=
  String.prefix needle s ||
  match s with
  | EmptyString => false
  | String _ s' => includes s' needle
  end.

Definition blocked_url (u : string) : bool :=
  includes u "/blocked" || includes u "/denied".

Definition AutomationBlocked : JsError :=
  Error "Automation detected and blocked".

Definition rate_limit_warning : string :=
  "Rate limit response detected (429). Slowing down...".
Definition auth_warning : string :=
  "Authentication issue detected. May need to re-login.".
Definition blocked_error : string :=
  "Multiple blocked requests detected. Stopping automation.".

(** The listener that [setupRequestMonitoring] registers for ['response']. *)
Definition on_response (response : Response) : M unit :=
  (if status response =? 429
   then emit (ConsoleWarn rate_limit_warning) ;;;
        randomDelay 30000 60000
   else ret tt) ;;;
  (if (status response =? 401) || (status response =? 403)
   then emit (ConsoleWarn auth_warning)
   else ret tt) ;;;
  let url := url response in
  if includes url "/blocked" || includes url "/denied"
  then
    b <- get_blockedRequests ;;
    set_blockedRequests (b + 1) ;;;
    b <- get_blockedRequests ;;
    if b >? 3
    then emit (ConsoleError blocked_error) ;;;
         throw AutomationBlocked
    else ret tt
  else ret tt.

(** [setupRequestMonitoring(page)]: [let blockedRequests = 0], then the
    listener is registered. *)
Definition setupRequestMonitoring : M unit :=
  set_blockedRequests 0.

(** The listener calls for a list of responses, each run to its end before
    the next begins; every call has an outcome of its own, and one that
    throws does not unregister the listener.  (The page itself does not wait
    for a call in its cooldown: see [monitor] below.) *)
Fixpoint emit_responses (rs : list Response) : World -> list (Outcome unit) * World :=
  fun w =>
    match rs with
    | [] => ([], w)
    | r :: rs' =>
        let (o, w') := on_response r w in
        let (os, w'') := emit_responses rs' w' in
        (o :: os, w'')
    end.


(** How many of the responses have a block-page URL. *)
Definition blocked_count (rs : list Response) : Z :=
  Z.of_nat (length (List.filter (fun r => blocked_url (url r)) rs)).

(** The sleeps of a log, oldest first. *)
Definition sleeps (log : list Event) : list Z :=
  rev (omap (fun e => match e with Sleep d => Some d | _ => None end) log).

(** The total of the sleeps that a log asks for. *)
Definition asked (log : list Event) : Z :=
  foldr Z.add 0 (sleeps log).

(** *** The listener as the page calls it

    [page.on] does not await the listener.  A call for a response of any
    status but 429 meets no [await] and runs to its end when the response
    arrives.  A call for status 429 runs up to the timer of its cooldown and
    is suspended there; it goes on from the second check when the timer has
    fired, and the responses that arrive in the meantime are handled before
    it does. *)

(** The listener up to the [await] inside [randomDelay(30000, 60000)]: the
    warning, the draw, the timer that is set.  It yields the delay asked
    for. *)
Definition cooldown_start : M Z :=
  emit (ConsoleWarn rate_limit_warning) ;;;
  r <- Math_random ;;
  let delay := Math_floor (r * inject_Z (60000 - 30000 + 1)) + 30000 in
  emit (Sleep delay) ;;;
  ret delay.

(** The listener from its second check on. *)
Definition after_cooldown (response : Response) : M unit :=
  (if (status response =? 401) || (status response =? 403)
   then emit (ConsoleWarn auth_warning)
   else ret tt) ;;;
  let url := url response in
  if includes url "/blocked" || includes url "/denied"
  then
    b <- get_blockedRequests ;;
    set_blockedRequests (b + 1) ;;;
    b <- get_blockedRequests ;;
    if b >? 3
    then emit (ConsoleError blocked_error) ;;;
         throw AutomationBlocked
    else ret tt
  else ret tt.

(** A listener call that has ended: its number in the order of arrival, its
    response, how it ended. *)
Record Call : Type := mkCall {
  call_number : nat;
  call_response : Response;
  call_outcome : Outcome unit
}.

(** A page with its listener: the calls suspended in their cooldown, the
    calls that have ended, in the order in which they ended, and the number
    of responses so far. *)
Record Monitoring : Type := mkMonitoring {
  page_world : World;
  suspended : list (nat * Response);
  finished : list Call;
  arrived : nat
}.

(** What happens next on the page: a response arrives, or the timer of a
    suspended call has fired.  Which of the two, and when, is not for the
    listener to say. *)
Inductive Turn : Type :=
  | Arrives (response : Response)
  | Wakes (call : nat).

(** Takes the call with the given number out of the suspended ones. *)
Fixpoint resume (call : nat) (calls : list (nat * Response))
  : option (Response * list (nat * Response)) :=
  match calls with
  | [] => None
  | (n, r) :: rest =>
      if Nat.eqb n call then Some (r, rest)
      else match resume call rest with
           | Some (r', rest') => Some (r', (n, r) :: rest')
           | None => None
           end
  end.

(** One turn.  A response of status 429 starts a call that is suspended at
    its cooldown; a response of another status is handled by a call that
    runs to its end at once; a timer that fires lets its call go on from the
    second check.  When a timer fires is for the list of turns to say:
    nothing is assumed of the time that has passed, and a turn for a call
    that is not suspended does nothing. *)
Definition turn (m : Monitoring) (t : Turn) : Monitoring :=
  match t with
  | Arrives r =>
      if status r =? 429
      then let (_, w') := cooldown_start (page_world m) in
           mkMonitoring w' ((arrived m, r) :: suspended m) (finished m)
             (S (arrived m))
      else let (o, w') := on_response r (page_world m) in
           mkMonitoring w' (suspended m)
             (finished m ++ [mkCall (arrived m) r o]) (S (arrived m))
  | Wakes call =>
      match resume call (suspended m) with
      | Some (r, rest) =>
          let (o, w') := after_cooldown r (page_world m) in
          mkMonitoring w' rest (finished m ++ [mkCall call r o]) (arrived m)
      | None => m
      end
  end.

(** One monitored session, turn by turn: set up, then what the page does. *)
Definition monitor (turns : list Turn) (w : World) : Monitoring :=
  fold_left turn turns
    (mkMonitoring (snd (setupRequestMonitoring w)) [] [] 0).

(** The responses that arrive in a session, in order. *)
Definition arrivals (turns : list Turn) : list Response :=
  omap (fun t => match t with Arrives r => Some r | Wakes _ => None end) turns.

(** The responses of the calls that have ended, in the order in which the
    calls ended. *)
Definition counted (calls : list Call) : list Response :=
  map call_response calls.

(** How a call ends that is the last to count among [seen]. *)
Definition verdict (r : Response) (seen : list Response) : Outcome unit :=
  if blocked_url (url r) && (blocked_count seen >? 3)
  then Throw AutomationBlocked else Ret tt.

(** ** global-setup.ts: session loading *)

Section SessionStore.

(** [JSON.parse], which returns a value or throws. *)
Variable JSON_parse : string -> JsError + JsValue.

Definition import_fs : M (gmap string FsNode) :=
  fun w =>
    match node_fs w with
    | Some files => (Ret files, w)
    | None => (Throw (Error "Cannot find module 'fs'"), w)
    end.

Definition fs_existsSync (files : gmap string FsNode) (path : string) : bool :=
  bool_decide (is_Some (files !! path)).

Definition fs_readFileSync (files : gmap string FsNode) (path : string) : M string :=
  match files !! path with
  | Some (RegularFile content) => ret content
  | _ => throw FsError
  end.

Definition JSON_parse_call (text : string) : M JsValue :=
  match JSON_parse text with
  | inr v => ret v
  | inl e => throw e
  end.

(** [loadSession(sessionPath)].  The body of the [try] yields [Some v]
    when it ran [return v] and [None] when it fell through. *)
Definition loadSession (sessionPath : string) : M JsValue :=
  returned <-
    try_catch
      (fs <- import_fs ;;
       if fs_existsSync fs sessionPath
       then text <- fs_readFileSync fs sessionPath ;;
            v <- JSON_parse_call text ;;
            ret (Some v)
       else ret None)
      (fun error =>
         emit (ConsoleWarn "Could not load session:") ;;;
         ret None) ;;
  match returned with
  | Some v => ret v
  | None => ret JsNull
  end.

End SessionStore.

(** ** Notions used in the statements and proofs *)

(** What [Date.now()] returns to a call that starts in [w]. *)
Definition time_at_entry (w : World) : Z := clock (snd (Date_now w)).

(** How many of the instants [ts] are at or before [u]. *)
Definition count_upto (u : Z) (ts : list Z) : nat :=
  length (filter (fun x => x <= u) ts).

(** The least distance from the last recorded request to the return of the
    next call, and the number of coming returns that can still fall within
    one interval of the last recorded request, for a request count [c]. *)
Definition min_gap (c : Z) : Z :=
  if c >=? maxRequests then resetInterval else 2000.
Definition room (c : Z) : Z :=
  if c >=? maxRequests then 1 else maxRequests - c.

(** The operations of the behaviour simulator. *)
Definition behaviours : list (M unit) :=
  [simulateMouseMovement; humanScroll; simulateRealisticBehavior].

(** From [w] to [w'] the environment is the same and input actions were
    only consumed. *)
Definition steady (w w' : World) : Prop :=
  rand w' = rand w /\ page_fault w' = page_fault w /\
  (page_ix w <= page_ix w')%nat.

(** No input action attempted between [w] and index [n] was rejected. *)
Definition accepted_upto (w : World) (n : nat) : Prop :=
  forall k, (page_ix w <= k < n)%nat -> page_fault w k = false.

(** An operation either completes with every input action accepted, or
    throws the rejection of the last input action it attempted: it stops at
    the first rejected action and hands the error to its caller. *)
Definition propagates {A} (m : M A) : Prop :=
  forall w, fair w ->
    match m w with
    | (Ret _, w') => steady w w' /\ accepted_upto w (page_ix w')
    | (Throw e, w') =>
        steady w w' /\ e = TargetClosed /\
        (page_ix w < page_ix w')%nat /\
        page_fault w (pred (page_ix w')) = true /\
        accepted_upto w (pred (page_ix w')) /\
        exists a rest, events w' = Rejected a :: rest
    end.

(** On a page without viewport the operation leaves the viewport absent and
    adds no click to the log. *)
Definition clickless {A} (m : M A) : Prop :=
  forall w, viewport w = None ->
    viewport (snd (m w)) = None /\
    clicks (events (snd (m w))) = clicks (events w).

(** The effects of the three checks of the listener, each by its own
    condition: the cooldown of length [d], the warning, the fatal error. *)
Definition rate_limit_events (r : Response) (d : Z) : list Event :=
  if status r =? 429 then [Sleep d; ConsoleWarn rate_limit_warning] else [].
Definition auth_events (r : Response) : list Event :=
  if (status r =? 401) || (status r =? 403)
  then [ConsoleWarn auth_warning] else [].
Definition block_events (r : Response) (counter : Z) : list Event :=
  if blocked_url (url r) && (counter >? 3)
  then [ConsoleError blocked_error] else [].

(** The cooldown that [randomDelay(30000, 60000)] draws in [w]. *)
Definition cooldown (w : World) : Z :=
  Math_floor (rand w (rand_ix w) * inject_Z (60000 - 30000 + 1)) + 30000.

(** The world after the warning of the [catch] block of [loadSession]. *)
Definition warned (w : World) : World :=
  snd (emit (ConsoleWarn "Could not load session:") w).

(** ** Sample worlds and inputs *)

(** A quiet world: an open page of 1280 by 720, a clock well after 1970,
    [Math.random()] always 0, no unasked delay, an empty filesystem. *)
Definition calm_world : World :=
  mkWorld 1700000000000 (fun _ => 0%Q) 0 (fun _ => 0%nat) 0
    (Some (1280, 720)) (fun _ => false) 0 (Some ∅) new_RateLimiter 0 [].

(** The page is closed: every input action rejects. *)
Definition closed_page_world : World :=
  mkWorld 1700000000000 (fun _ => 0%Q) 0 (fun _ => 0%nat) 0
    (Some (1280, 720)) (fun _ => true) 0 (Some ∅) new_RateLimiter 0 [].

(** The page closes after its second input action. *)
Definition closing_page_world : World :=
  mkWorld 1700000000000 (fun _ => 0%Q) 0 (fun _ => 0%nat) 0
    (Some (1280, 720)) (fun k => (2 <=? k)%nat) 0 (Some ∅) new_RateLimiter 0 [].

(** A page without viewport. *)
Definition no_viewport_world : World :=
  mkWorld 1700000000000 (fun _ => (9 # 10)%Q) 0 (fun _ => 0%nat) 0
    None (fun _ => false) 0 (Some ∅) new_RateLimiter 0 [].

(** Five requests were counted, the last recorded at instant 0; the clock
    reads 100000. *)
Definition idle_limiter_world : World :=
  mkWorld 100000 (fun _ => 0%Q) 0 (fun _ => 0%nat) 0
    None (fun _ => false) 0 None (mkRateLimiter 0 5) 0 [].

(** The last request was recorded at 10000, the clock reads 11500 and the
    next [Math.random()] is 0.999. *)
Definition hasty_world : World :=
  mkWorld 11500 (fun _ => (999 # 1000)%Q) 0 (fun _ => 0%nat) 0
    None (fun _ => false) 0 None (mkRateLimiter 10000 0) 0 [].

(** [Math.random()] yields 0 first and 0.5 from then on. *)
Definition varying_world : World :=
  mkWorld 1700000000000
    (fun k => match k with O => 0%Q | S _ => (1 # 2)%Q end) 0
    (fun _ => 0%nat) 0 (Some (1280, 720)) (fun _ => false) 0 (Some ∅)
    new_RateLimiter 0 [].

Definition rate_limited_block_page : Response :=
  mkResponse 429 "https://mls.example.com/blocked".

Definition block_page : Response :=
  mkResponse 200 "https://mls.example.com/denied?reason=bot".

Definition plain_page : Response :=
  mkResponse 200 "https://mls.example.com/search".

(** A rate-limited block page, then three block pages while its call is in
    its cooldown, then the end of the cooldown. *)
Definition blocked_during_cooldown : list Turn :=
  [Arrives rate_limited_block_page; Arrives block_page; Arrives block_page;
   Arrives block_page; Wakes 0].

Definition full_hd : Screen := mkScreen 1920 1080.

(** A stand-in for [JSON.parse] that knows two texts. *)
Definition toy_JSON_parse (text : string) : JsError + JsValue :=
  if String.eqb text "{}" then inr (JsObject [])
  else if String.eqb text "null" then inr JsNull
  else inl SyntaxError.

(** A filesystem with a saved session, a damaged one and a directory. *)
Definition sample_files : gmap string FsNode :=
  <["./data/mls-session.json" := RegularFile "{}"]>
  (<["./data/broken.json" := RegularFile "{oops"]>
  (<["./data" := Unreadable]> ∅)).

Definition disk_world : World :=
  mkWorld 1700000000000 (fun _ => 0%Q) 0 (fun _ => 0%nat) 0
    None (fun _ => false) 0 (Some sample_files) new_RateLimiter 0 [].

(** ** global-setup.ts: mouse jiggler *)

(** The callback that [startMouseJiggler] hands to [setInterval]. *)
Definition jiggler_tick : M unit :=
  try_catch
    (viewport <- page_viewportSize ;;
     match viewport with
     | Some (width, height) =>
         rx <- Math_random ;;
         let x := Math_floor (rx * inject_Z width) in
         ry <- Math_random ;;
         let y := Math_floor (ry * inject_Z height) in
         page_mouse_move (inject_Z x) (inject_Z y) 5
     | None => ret tt
     end)
    (fun error => ret tt).

(** [startMouseJiggler(page, intervalMs)] followed by the first [n] firings
    of the interval timer. *)
Definition startMouseJiggler (intervalMs : Z) (n : nat) : M unit :=
  repeatM n (elapse (timer_wait intervalMs) ;;; jiggler_tick).

(** ** global-setup.ts: CAPTCHA detection *)

Definition double_quote : string := String (Ascii.ascii_of_nat 34) EmptyString.

(** [[attribute*="value"]] *)
Definition attribute_contains (attribute value : string) : string :=
  "[" +:+ attribute +:+ "*=" +:+ double_quote +:+ value +:+ double_quote
  +:+ "]".

Definition captchaSelectors : list string :=
  [ "iframe" +:+ attribute_contains "src" "recaptcha";
    "iframe" +:+ attribute_contains "src" "captcha";
    ".g-recaptcha";
    "#captcha";
    attribute_contains "class" "captcha";
    "img" +:+ attribute_contains "src" "captcha" ].

Definition captcha_warning : string :=
  "CAPTCHA detected! Manual intervention may be required.".

(** [await page.locator(selector).count()] on a document in which
    [document selector] elements match, or for which the query rejects. *)
Definition locator_count (document : string -> JsError + Z) (selector : string)
  : M Z :=
  match document selector with
  | inr n => ret n
  | inl e => throw e
  end.

(** The [for] loop of [detectCaptcha] over the selectors that are left. *)
Fixpoint detectCaptcha_from (document : string -> JsError + Z)
    (selectors : list string) : M bool :=
  match selectors with
  | [] => ret false
  | selector :: rest =>
      n <- locator_count document selector ;;
      if n >? 0
      then emit (ConsoleWarn captcha_warning) ;;; ret true
      else detectCaptcha_from document rest
  end.

(** [detectCaptcha(page)] *)
Definition detectCaptcha (document : string -> JsError + Z) : M bool :=
  detectCaptcha_from document captchaSelectors.

(** ** global-setup.ts: the battery added by [setupRealisticFingerprint] *)

(** The object that the added [navigator.getBattery] resolves to;
    [chargingTime] is [None] for [Infinity].  The level is kept as the exact
    sum; the double that the program holds is this sum rounded, which can
    be 1. *)
Record Battery : Type := mkBattery {
  charging : bool;
  chargingTime : option Z;
  dischargingTime : Z;
  level : Q
}.

Definition getBattery : M Battery :=
  r1 <- Math_random ;;
  r2 <- Math_random ;;
  chargingTime <-
    (if Qlt_le_dec (1 # 2) r2 then ret None
     else r3 <- Math_random ;; ret (Some (Math_floor (r3 * 3600)))) ;;
  r4 <- Math_random ;;
  r5 <- Math_random ;;
  ret {| charging := if Qlt_le_dec (1 # 2) r1 then true else false;
         chargingTime := chargingTime;
         dischargingTime := Math_floor (r4 * 10800) + 3600;
         level := ((1 # 2) + r5 * (1 # 2))%Q |}.

(** ** browser-utils.ts: request blocking *)

Record Request : Type := mkRequest { resourceType : string; request_url : string }.

Inductive RouteCall : Type := RouteAbort | RouteContinue.

Definition blocked_resource_types : list string :=
  ["image"; "stylesheet"; "font"].

Definition tracker_markers : list string :=
  ["google-analytics"; "googletagmanager"; "facebook.com"; "doubleclick";
   "adsystem"].

(** The handler that [blockUnnecessaryResources] installs for every route;
    the result lists the calls made on [route]. *)
Definition route_handler (request : Request) : list RouteCall :=
  let resourceType := resourceType request in
  let url := request_url request in
  if existsb (String.eqb resourceType) blocked_resource_types
  then [RouteAbort]
  else if includes url "google-analytics"
          || includes url "googletagmanager"
          || includes url "facebook.com"
          || includes url "doubleclick"
          || includes url "adsystem"
  then [RouteAbort]
  else [RouteContinue].

(** ** Further notions used in the statements *)



(** How many of the responses have status 429. *)
Definition rate_limited_count (rs : list Response) : Z :=
  Z.of_nat (length (List.filter (fun r => status r =? 429) rs)).

(** The world at the end of a monitored session. *)
Definition after_session (rs : list Response) (w : World) : World :=
  snd (emit_responses rs (snd (setupRequestMonitoring w))).

(** A bounded run on a page with viewport [vp]: the viewport and the
    environment stay as they are, every event the run adds satisfies [P],
    a value it returns satisfies [V], and it attempts at most [hi] input
    actions, and at least [lo] when it returns. *)
Definition yields (vp : option (Z * Z)) (P : Event -> Prop) {A}
    (V : A -> Prop) (lo hi : nat) (m : M A) : Prop :=
  forall w, fair w -> viewport w = vp ->
    fair (snd (m w)) /\ viewport (snd (m w)) = vp /\
    (exists new, events (snd (m w)) = new ++ events w /\ Forall P new) /\
    (page_ix w <= page_ix (snd (m w)) <= page_ix w + hi)%nat /\
    match fst (m w) with
    | Ret a => V a /\ (page_ix w + lo <= page_ix (snd (m w)))%nat
    | Throw _ => True
    end.

(** Strictly between the two edges of a side of length [size].  The
    coordinates of the source are doubles: what is said of them here leaves
    their rounding a margin of a tenth of the side at either edge. *)
Definition inside (size : Z) (x : Q) : Prop :=
  (0 < x)%Q /\ (x < inject_Z size)%Q.

(** What [simulateMouseMovement] may add to the log on a viewport of
    [width] by [height]. *)
Definition movement_event (width height : Z) (e : Event) : Prop :=
  match e with
  | MouseMove x y steps | Rejected (MouseMove x y steps) =>
      inside width x /\ inside height y /\ 10 <= steps <= 19
  | Sleep ms => 100 <= ms <= 300
  | _ => False
  end.

(** A wheel turn of [humanScroll]: down by a whole amount from 100 to 399,
    or back up by half of such an amount. *)
Definition scroll_turn (dx dy : Q) : Prop :=
  dx = 0%Q /\
  exists amount,
    100 <= amount <= 399 /\
    (dy = inject_Z amount \/ dy = (- inject_Z amount / 2)%Q).

(** What [humanScroll] may add to the log. *)
Definition scroll_event (e : Event) : Prop :=
  match e with
  | MouseWheel dx dy | Rejected (MouseWheel dx dy) => scroll_turn dx dy
  | Sleep ms => 300 <= ms <= 1500
  | _ => False
  end.

(** What [simulateRealisticBehavior] may add to the log on a viewport of
    [width] by [height]. *)
Definition idle_event (width height : Z) (e : Event) : Prop :=
  match e with
  | MouseMove x y steps | Rejected (MouseMove x y steps) =>
      inside width x /\ inside height y /\ 10 <= steps <= 19
  | MouseWheel dx dy | Rejected (MouseWheel dx dy) => scroll_turn dx dy
  | MouseClick x y | Rejected (MouseClick x y) =>
      inside width x /\ inside height y
  | KeyPress key | Rejected (KeyPress key) => key = "Tab" \/ key = "Escape"
  | Sleep ms => 100 <= ms <= 2000
  | _ => False
  end.

(** ** Further sample inputs *)

(** A document with one element of class [g-recaptcha]; the query for
    [#captcha] would reject. *)
Definition recaptcha_document (selector : string) : JsError + Z :=
  if String.eqb selector ".g-recaptcha" then inr 1
  else if String.eqb selector "#captcha" then inl TargetClosed
  else inr 0.

(** ** browser-utils.ts: scripted page operations *)

(** Calls on the page that the functions below make.  Each of them may
    reject, as the input actions above, when the page is closed or the
    operation times out. *)
Inductive PageOp : Type :=
  | Click (selector : string)
  | Fill (selector value : string)
  | TypeChar (char : string)
  | ScrollToEnd
  | ReadScrollHeight
  | WaitForTimeout (ms : Z)
  | IsVisible (selector : string)
  | LocatorClick (selector : string)
  | Screenshot (path : string) (fullPage : bool).

(** One line of the script: a page operation that was performed, one that
    rejected, or an effect of the host. *)
Inductive Step : Type :=
  | Done (op : PageOp)
  | Failed (op : PageOp)
  | Host (e : Event).

Record Browser : Type := mkBrowser {
  world : World;
  scrollHeights : nat -> Z;     (* k-th reading of document.body.scrollHeight *)
  heights_ix : nat;
  visible : string -> bool;     (* is the first match of a selector visible? *)
  script : list Step             (* what was done, newest first *)
}.

Definition B (A : Type) : Type := Browser -> Outcome A * Browser.

Definition retB {A} (a : A) : B A := fun b => (Ret a, b).

Definition bindB {A C} (m : B A) (k : A -> B C) : B C :=
  fun b =>
    match m b with
    | (Ret a, b') => k a b'
    | (Throw e, b') => (Throw e, b')
    end.

Definition try_catchB {A} (body : B A) (handler : JsError -> B A) : B A :=
  fun b =>
    match body b with
    | (Ret a, b') => (Ret a, b')
    | (Throw e, b') => handler e b'
    end.

Declare Scope browser_scope.
Delimit Scope browser_scope with browser.
Notation "x <~ m ;; k" := (bindB m (fun x => k))
  (at level 100, m at next level, right associativity) : browser_scope.
Notation "m ;;~ k" := (bindB m (fun _ => k))
  (at level 100, right associativity) : browser_scope.
Local Open Scope browser_scope.

(** [for (const x of xs) body(x)] *)
Fixpoint forB {A} (xs : list A) (body : A -> B unit) : B unit :=
  match xs with
  | [] => retB tt
  | x :: xs' => body x ;;~ forB xs' body
  end.

(** A computation of the host run in the browser: what it adds to the
    events of the world is copied to the script. *)
Definition lift {A} (m : M A) : B A :=
  fun b =>
    match m (world b) with
    | (o, w') =>
        let added :=
          take (length (events w') - length (events (world b))) (events w') in
        (o, mkBrowser w' (scrollHeights b) (heights_ix b) (visible b)
              (map Host added ++ script b))
    end.

(** The world after one more page operation was attempted. *)
Definition next_action (w : World) : World :=
  mkWorld (clock w) (rand w) (rand_ix w) (late w) (late_ix w) (viewport w)
    (page_fault w) (S (page_ix w)) (node_fs w) (limiter w) (blockedRequests w)
    (events w).

(** A page operation: it is performed, or it rejects. *)
Definition perform (op : PageOp) : B unit :=
  fun b =>
    let rejects := page_fault (world b) (page_ix (world b)) in
    let b' :=
      mkBrowser (next_action (world b)) (scrollHeights b) (heights_ix b)
        (visible b) ((if rejects then Failed op else Done op) :: script b) in
    if rejects then (Throw TargetClosed, b') else (Ret tt, b').

(** [page.click(selector)], [page.fill(selector, value)],
    [page.keyboard.type(char)] *)
Definition page_click (selector : string) : B unit :=
  perform (Click selector).
Definition page_fill (selector value : string) : B unit :=
  perform (Fill selector value).
Definition page_keyboard_type (char : string) : B unit :=
  perform (TypeChar char).

(** [page.waitForTimeout(ms)] *)
Definition page_waitForTimeout (ms : Z) : B unit :=
  perform (WaitForTimeout ms) ;;~ lift (elapse (timer_wait ms)).

(** [page.evaluate(() => window.scrollTo(0, document.body.scrollHeight))] *)
Definition evaluate_scrollToEnd : B unit := perform ScrollToEnd.

(** [page.evaluate(() => document.body.scrollHeight)] *)
Definition evaluate_scrollHeight : B Z :=
  perform ReadScrollHeight ;;~
  (fun b =>
     (Ret (scrollHeights b (heights_ix b)),
      mkBrowser (world b) (scrollHeights b) (S (heights_ix b)) (visible b)
        (script b))).

(** [page.locator(selector).first().isVisible({ timeout: 2000 })] and
    [element.click()] *)
Definition locator_isVisible (selector : string) : B bool :=
  perform (IsVisible selector) ;;~ (fun b => (Ret (visible b selector), b)).
Definition locator_click (selector : string) : B unit :=
  perform (LocatorClick selector).

(** [page.screenshot({ path, fullPage })] *)
Definition page_screenshot (path : string) (fullPage : bool) : B unit :=
  perform (Screenshot path fullPage).

(** [humanType(page, selector, text)].  The text is given as what
    [for (const char of text)] walks: its code points in order, each a
    string of its own. *)
Definition humanType (selector : string) (text : list string) : B unit :=
  page_click selector ;;~
  page_fill selector EmptyString ;;~
  forB text (fun char =>
    page_keyboard_type char ;;~
    lift (randomDelay 50 150)).

(** The [while] loop of [scrollToBottom] with [fuel] rounds left before
    [scrollCount] reaches [maxScrolls]. *)
Fixpoint scroll_rounds (fuel : nat) (previousHeight : Z) : B unit :=
  match fuel with
  | O => retB tt
  | S fuel' =>
      evaluate_scrollToEnd ;;~
      page_waitForTimeout 2000 ;;~
      currentHeight <~ evaluate_scrollHeight ;;
      if currentHeight =? previousHeight
      then retB tt
      else scroll_rounds fuel' currentHeight
  end.

(** [scrollToBottom(page, maxScrolls)], for a whole number [maxScrolls] *)
Definition scrollToBottom (maxScrolls : Z) : B unit :=
  scroll_rounds (Z.to_nat maxScrolls) 0.

Definition cookieSelectors : list string :=
  [ "button" +:+ attribute_contains "id" "accept";
    "button" +:+ attribute_contains "id" "cookie";
    "button" +:+ attribute_contains "class" "accept";
    "button" +:+ attribute_contains "class" "cookie";
    attribute_contains "data-testid" "accept";
    attribute_contains "data-testid" "cookie";
    "text=Accept";
    "text=Accept All";
    "text=I Accept";
    "text=OK" ].

(** The [for] loop of [handleCookieConsent] over the selectors that are
    left; the [try] block yields [true] when it ran [break]. *)
Fixpoint consent_from (selectors : list string) : B unit :=
  match selectors with
  | [] => retB tt
  | selector :: rest =>
      stop <~
        try_catchB
          (shown <~ locator_isVisible selector ;;
           if shown
           then locator_click selector ;;~
                page_waitForTimeout 1000 ;;~
                retB true
           else retB false)
          (fun error => retB false) ;;
      if stop then retB tt else consent_from rest
  end.

(** [handleCookieConsent(page)] *)
Definition handleCookieConsent : B unit := consent_from cookieSelectors.

Definition colon : Ascii.ascii := Ascii.ascii_of_nat 58.
Definition dot : Ascii.ascii := Ascii.ascii_of_nat 46.
Definition hyphen : Ascii.ascii := Ascii.ascii_of_nat 45.

(** [s.replace(/[:.]/g, '-')] *)
Fixpoint replace_colons_and_dots (s : string) : string :=
  match s with
  | EmptyString => EmptyString
  | String c rest =>
      String (if Ascii.eqb c colon || Ascii.eqb c dot then hyphen else c)
        (replace_colons_and_dots rest)
  end.

Section Screenshots.

(** [new Date(t).toISOString()] *)
Variable toISOString : Z -> string.

(** [takeTimestampedScreenshot(page, name)] *)
Definition takeTimestampedScreenshot (name : string) : B string :=
  now <~ lift Date_now ;;
  let timestamp := replace_colons_and_dots (toISOString now) in
  let filename := name +:+ "-" +:+ timestamp +:+ ".png" in
  let path := "./data/screenshots/" +:+ filename in
  page_screenshot path true ;;~
  retB path.

End Screenshots.

(** The page operations of a script, oldest first, rejected ones left
    out. *)
Definition performed (s : list Step) : list PageOp :=
  rev (omap (fun st => match st with Done op => Some op | _ => None end) s).

(** How many rounds of scrolling the script holds, attempted ones
    included. *)
Definition scroll_count (s : list Step) : nat :=
  length (List.filter
            (fun st => match st with
                       | Done ScrollToEnd | Failed ScrollToEnd => true
                       | _ => false
                       end) s).

(** The script of typing the characters [cs] with the pauses [ps], oldest
    first. *)
Fixpoint keystrokes (cs : list string) (ps : list Z) : list Step :=
  match cs, ps with
  | c :: cs', p :: ps' =>
      Done (TypeChar c) :: Host (Sleep p) :: keystrokes cs' ps'
  | _, _ => []
  end.

(** The height that the [k]-th reading from [b] on is compared with: 0 at
    first, then the reading before. *)
Definition height_before (b : Browser) (k : nat) : Z :=
  match k with
  | O => 0
  | S j => scrollHeights b (heights_ix b + j)
  end.

(** No page operation rejects from now on. *)
Definition page_stays_open (b : Browser) : Prop :=
  forall k, page_fault (world b) k = false.

(** A browser on an open page with nothing visible and a height that
    grows twice and then stays. *)
Definition sample_browser : Browser :=
  mkBrowser calm_world
    (fun k => match k with O => 1000 | 1%nat => 1800 | _ => 2400 end) 0
    (fun selector => String.eqb selector "text=Accept All") [].

(** The same browser on a closed page. *)
Definition closed_browser : Browser :=
  mkBrowser closed_page_world (fun _ => 0) 0 (fun _ => true) [].

(** ** Running the monad by hand *)

Ltac world_fields :=
  cbv beta iota zeta delta
    [clock rand rand_ix late late_ix viewport page_fault page_ix node_fs
     limiter blockedRequests events lastRequestTime requestCount] in *.

Ltac run_monad :=
  cbv beta iota zeta delta
    [bind ret throw try_catch emit elapse sleep Date_now Math_random
     page_viewportSize page_action get_limiter set_limiter
     get_blockedRequests set_blockedRequests randomDelay
     clock rand rand_ix late late_ix viewport page_fault page_ix node_fs
     limiter blockedRequests events lastRequestTime requestCount].

(** * Properties *)

(** [Math.floor(r * n)] for a random [r] is one of [0 .. n - 1]. *)
Lemma floor_scaled_range (r : Q) (n : Z) :
  unit_interval r -> 0 < n -> 0 <= Math_floor (r * inject_Z n) <= n - 1.
Proof.
  intros [Hlo Hhi] Hn. unfold Math_floor. split.
  - rewrite <- (Qfloor_Z 0). apply Qfloor_resp_le.
    apply Qmult_le_0_compat; [exact Hlo|].
    change 0%Q with (inject_Z 0). rewrite <- Zle_Qle. lia.
  - assert (H : (inject_Z (Qfloor (r * inject_Z n)) < inject_Z n)%Q).
    { eapply Qle_lt_trans; [apply Qfloor_le|].
      rewrite <- (Qmult_1_l (inject_Z n)) at 2.
      apply Qmult_lt_compat_r; [|exact Hhi].
      change 0%Q with (inject_Z 0). rewrite <- Zlt_Qlt. lia. }
    rewrite <- Zlt_Qlt in H. lia.
Qed.

Lemma timer_wait_spec (ms : Z) :
  0 <= timer_wait ms /\ (ms <= 2147483647 -> ms <= timer_wait ms).
Proof.
  unfold timer_wait. destruct (Z.gtb_spec ms 2147483647); lia.
Qed.

(** A decidable test for membership of [0, 1). *)
Lemma unit_interval_check (r : Q) :
  Qle_bool 0 r && negb (Qle_bool 1 r) = true -> unit_interval r.
Proof.
  intros H. apply andb_prop in H as [H0 H1]. split.
  - apply Qle_bool_iff, H0.
  - apply Qnot_le_lt. intros Hle. apply Qle_bool_iff in Hle.
    rewrite Hle in H1. discriminate.
Qed.

Lemma fair_constant (w : World) (r : Q) :
  rand w = (fun _ => r) -> Qle_bool 0 r && negb (Qle_bool 1 r) = true -> fair w.
Proof. intros Hr Hc k. rewrite Hr. apply unit_interval_check, Hc. Qed.

(** ** RateLimiter *)

(** One call on a monotone clock: it returns, its return is the recorded
    request time, and either a new count starts a full interval after the
    previous request, or the count grows by one, was below the limit, and the
    return is at least 2000 after the previous request. *)
Lemma waitIfNeeded_step (w : World) :
  fair w -> lastRequestTime (limiter w) <= clock w ->
  exists w',
    waitIfNeeded w = (Ret tt, w') /\
    rand w' = rand w /\ late w' = late w /\
    clock w' = lastRequestTime (limiter w') /\
    ((requestCount (limiter w') = 1 /\
      lastRequestTime (limiter w) + 60000 <= clock w') \/
     (requestCount (limiter w') = requestCount (limiter w) + 1 /\
      requestCount (limiter w) < 30 /\
      lastRequestTime (limiter w) + 2000 <= clock w')).
Proof.
  intros Hfair Hclk.
  destruct w as [clk rnd ri lt li vp pf pi fs [last cnt] br ev].
  unfold fair in Hfair. world_fields.
  unfold waitIfNeeded, reset_if_interval_passed, wait_if_limit_hit,
    natural_delay, record_request, resetInterval, maxRequests.
  run_monad.
  set (now := clk + 0 + Z.of_nat (lt li)).
  assert (Hnow : last <= now) by (subst now; lia).
  pose proof (fun m Hm => floor_scaled_range (rnd ri) m (Hfair ri) Hm) as Hfl.
  specialize (Hfl (4000 - (2000 - (now - last)) + 1)).
  pose proof (timer_wait_spec (60000 - (now - last))) as Hwait.
  pose proof (timer_wait_spec
                (Math_floor (rnd ri
                             * inject_Z (4000 - (2000 - (now - last)) + 1))
                 + (2000 - (now - last)))) as Hdelay.
  destruct (Z.gtb_spec (now - last) 60000) as [Hr|Hr]; run_monad.
  - change (0 >=? 30) with false. run_monad.
    destruct (Z.ltb_spec (now - last) 2000); [lia|]. run_monad.
    eexists; split; [reflexivity|]. world_fields. repeat split. left. lia.
  - destruct (Z.geb_spec cnt 30) as [Hc|Hc]; run_monad.
    + destruct (Z.ltb_spec (now - last) 2000) as [Hs|Hs]; run_monad.
      * eexists; split; [reflexivity|]. world_fields. repeat split. left. lia.
      * eexists; split; [reflexivity|]. world_fields. repeat split. left. lia.
    + destruct (Z.ltb_spec (now - last) 2000) as [Hs|Hs]; run_monad.
      * eexists; split; [reflexivity|]. world_fields. repeat split. right. lia.
      * eexists; split; [reflexivity|]. world_fields. repeat split. right. lia.
Qed.

Lemma count_upto_cons (u x : Z) (ts : list Z) :
  count_upto u (x :: ts) =
  ((if decide (x <= u)%Z then 1 else 0) + count_upto u ts)%nat.
Proof.
  unfold count_upto. rewrite filter_cons.
  destruct (decide (x <= u)); reflexivity.
Qed.

Lemma in_window_cons (t x : Z) (ts : list Z) :
  in_window t (x :: ts) =
  ((if decide (t <= x <= t + resetInterval)%Z then 1 else 0)
   + in_window t ts)%nat.
Proof.
  unfold in_window. rewrite filter_cons.
  destruct (decide (t <= x <= t + resetInterval)); reflexivity.
Qed.

Lemma count_upto_mono (u u' : Z) (ts : list Z) :
  u <= u' -> (count_upto u ts <= count_upto u' ts)%nat.
Proof.
  intros Hu. induction ts as [|x ts IH]; [reflexivity|].
  rewrite !count_upto_cons.
  destruct (decide (x <= u)), (decide (x <= u')); lia.
Qed.

Lemma count_upto_none (a u : Z) (ts : list Z) :
  Forall (fun x => a <= x) ts -> u < a -> count_upto u ts = 0%nat.
Proof.
  intros Hall Hu. induction Hall as [|x ts Hx _ IH]; [reflexivity|].
  rewrite count_upto_cons, IH. destruct (decide (x <= u)); lia.
Qed.

Lemma in_window_upto (t : Z) (ts : list Z) :
  (in_window t ts <= count_upto (t + resetInterval)%Z ts)%nat.
Proof.
  induction ts as [|x ts IH]; [reflexivity|].
  rewrite in_window_cons, count_upto_cons.
  destruct (decide (t <= x <= t + resetInterval)),
    (decide (x <= t + resetInterval)); lia.
Qed.

(** What lies ahead of a limiter with count [c] and last request [last]:
    every coming return is at least [min_gap c] later than [last], at most
    [room c] of them are within one interval of [last], and no window holds
    more than 30 of them. *)
Lemma serial_calls_future (n : nat) :
  forall w,
    fair w -> lastRequestTime (limiter w) <= clock w ->
    0 <= requestCount (limiter w) ->
    exists ts w',
      serial_calls n w = (Ret ts, w') /\
      length ts = n /\
      Forall (fun x => lastRequestTime (limiter w)
                       + min_gap (requestCount (limiter w)) <= x) ts /\
      Z.of_nat (count_upto (lastRequestTime (limiter w) + resetInterval) ts)
        <= room (requestCount (limiter w)) /\
      forall t, (in_window t ts <= 30)%nat.
Proof.
  induction n as [|n IH]; intros w Hfair Hclk Hcnt.
  - exists [], w. split; [reflexivity|]. split; [reflexivity|].
    split; [constructor|]. split.
    + unfold room, maxRequests. cbn.
      destruct (Z.geb_spec (requestCount (limiter w)) 30); lia.
    + intros t. cbn. lia.
  - destruct (waitIfNeeded_step w Hfair Hclk)
      as (w1 & Hrun & Hrand & Hlate & Hret & Hcase).
    assert (Hfair1 : fair w1) by (unfold fair in *; rewrite Hrand; exact Hfair).
    assert (Hclk1 : lastRequestTime (limiter w1) <= clock w1) by lia.
    assert (Hcnt1 : 0 <= requestCount (limiter w1)) by lia.
    destruct (IH w1 Hfair1 Hclk1 Hcnt1)
      as (rest & w' & Hrest & Hlen & Hgap & Hroom & Hwin).
    exists (clock w1 :: rest), w'.
    assert (Hrest2 : Forall (fun x => clock w1 + 2000 <= x) rest).
    { eapply Forall_impl; [exact Hgap|]. cbn. intros x Hx.
      rewrite <- Hret in Hx. unfold min_gap, maxRequests, resetInterval in Hx.
      destruct (_ >=? _); lia. }
    split; [|split; [|split; [|split]]].
    + cbn [serial_calls]. unfold bind at 1. rewrite Hrun.
      unfold bind, ret. rewrite Hrest. reflexivity.
    + cbn. lia.
    + constructor.
      * unfold min_gap, maxRequests, resetInterval.
        destruct (Z.geb_spec (requestCount (limiter w)) 30); lia.
      * eapply Forall_impl; [exact Hrest2|]. cbn. intros x Hx.
        unfold min_gap, maxRequests, resetInterval.
        destruct (Z.geb_spec (requestCount (limiter w)) 30); lia.
    + rewrite count_upto_cons.
      unfold room, maxRequests, resetInterval in *.
      destruct Hcase as [[Hc1 Ht1]|[Hc1 [Hlt Ht1]]].
      * (* a new count starts: only this return can touch the interval *)
        rewrite (count_upto_none (clock w1 + 2000)); [|exact Hrest2|lia].
        destruct (decide _), (Z.geb_spec (requestCount (limiter w)) 30); lia.
      * destruct (Z.geb_spec (requestCount (limiter w)) 30); [lia|].
        pose proof (count_upto_mono (lastRequestTime (limiter w) + 60000)
                      (lastRequestTime (limiter w1) + 60000) rest) as Hm.
        rewrite Hc1 in Hroom.
        destruct (Z.geb_spec (requestCount (limiter w) + 1) 30).
        -- (* the count is full after this call: the rest is an interval away *)
           rewrite (count_upto_none (lastRequestTime (limiter w1) + 60000));
             [destruct (decide _); lia| |lia].
           eapply Forall_impl; [exact Hgap|]. cbn. intros x Hx.
           rewrite Hc1 in Hx. unfold min_gap, maxRequests, resetInterval in Hx.
           destruct (Z.geb_spec (requestCount (limiter w) + 1) 30); lia.
        -- destruct (decide _); lia.
    + intros t. rewrite in_window_cons.
      destruct (decide (t <= clock w1 <= t + resetInterval)) as [Hin|Hout];
        [|apply Hwin].
      pose proof (in_window_upto t rest) as H1.
      pose proof (count_upto_mono (t + resetInterval)
                    (lastRequestTime (limiter w1) + resetInterval) rest) as H2.
      unfold room, maxRequests, resetInterval in *.
      destruct (Z.geb_spec (requestCount (limiter w1)) 30); lia.
Qed.

(** C1. For every number of awaited [waitIfNeeded()] calls on a fresh
    [RateLimiter] (maxRequests 30, resetInterval 60000), every call returns,
    and any window [t, t + 60000] holds at most 30 of the return instants. *)
Theorem rolling_window_bound (n : nat) (w : World) (t : Z) :
  fair w -> limiter w = new_RateLimiter -> 0 <= clock w ->
  exists ts,
    fst (serial_calls n w) = Ret ts /\ length ts = n /\
    (in_window t ts <= 30)%nat.
Proof.
  intros Hfair Hnew Hclk.
  destruct (serial_calls_future n w Hfair)
    as (ts & w' & Hrun & Hlen & _ & _ & Hwin).
  - rewrite Hnew. exact Hclk.
  - rewrite Hnew. cbn. lia.
  - exists ts. rewrite Hrun. auto.
Qed.

Lemma rolling_window_bound_witness :
  exists ts,
    fst (serial_calls 40 calm_world) = Ret ts /\ length ts = 40%nat /\
    (in_window 1700000000000 ts <= 30)%nat.
Proof.
  apply (rolling_window_bound 40 calm_world 1700000000000).
  - apply (fair_constant calm_world 0); reflexivity.
  - reflexivity.
  - vm_compute. discriminate.
Defined.

(** The bound is reached: thirty calls in a row return 2000 apart, from
    1700000000000 to 1700000058000, and the next one 62000 after the
    thirtieth: the wait for the limit and then the delay between requests. *)
Example window_can_be_full :
  exists ts,
    fst (serial_calls 31 calm_world) = Ret ts /\
    in_window 1700000000000 ts = 30%nat /\
    last ts = Some 1700000120000.
Proof. eexists. split; [vm_compute; reflexivity|]. split; reflexivity. Qed.

(** C5, as stated, fails: no window start is set.  The reset at the head
    of a call compares against the time of the last
    recorded request and leaves that time alone: with five requests counted,
    the last at 0, and a call entered at 100000, the count is reset while
    the checks that follow still see 0, not 100000, as the reference. *)
Lemma reset_does_not_move_reference :
  let now := time_at_entry idle_limiter_world in
  let w' := snd (reset_if_interval_passed now idle_limiter_world) in
  now = 100000 /\
  now - lastRequestTime (limiter idle_limiter_world) > resetInterval /\
  requestCount (limiter w') = 0 /\
  lastRequestTime (limiter w') = 0 /\
  lastRequestTime (limiter w') <> now.
Proof. vm_compute. repeat split; discriminate. Qed.

(** C5, amended. When a call is entered more than [resetInterval] after the
    last recorded request, the count is set to 0 before the limit and spacing
    checks and the recorded request time is kept; the call then returns
    without any suspension, with a count of 1 whatever the count was, and
    only then records its own return time. *)
Theorem reset_on_stale_request (w : World) :
  time_at_entry w - lastRequestTime (limiter w) > resetInterval ->
  limiter (snd (reset_if_interval_passed (time_at_entry w) w))
    = mkRateLimiter (lastRequestTime (limiter w)) 0 /\
  exists w',
    waitIfNeeded w = (Ret tt, w') /\
    requestCount (limiter w') = 1 /\
    events w' = events w /\
    lastRequestTime (limiter w') = clock w' /\
    time_at_entry w <= clock w'.
Proof.
  destruct w as [clk rnd ri lt li vp pf pi fs [last cnt] br ev].
  unfold time_at_entry, waitIfNeeded, reset_if_interval_passed,
    wait_if_limit_hit, natural_delay, record_request, resetInterval,
    maxRequests.
  run_monad. cbn [snd].  world_fields.
  set (now := clk + 0 + Z.of_nat (lt li)). intros Hstale.
  destruct (Z.gtb_spec (now - last) 60000) as [_|?]; [|lia]. run_monad.
  change (0 >=? 30) with false. run_monad.
  destruct (Z.ltb_spec (now - last) 2000); [lia|]. run_monad.
  split; [reflexivity|]. eexists; split; [reflexivity|]. world_fields.
  repeat split. lia.
Qed.

Lemma reset_on_stale_request_witness :
  limiter (snd (reset_if_interval_passed (time_at_entry idle_limiter_world)
                  idle_limiter_world))
    = mkRateLimiter (lastRequestTime (limiter idle_limiter_world)) 0 /\
  exists w',
    waitIfNeeded idle_limiter_world = (Ret tt, w') /\
    requestCount (limiter w') = 1 /\
    events w' = events idle_limiter_world /\
    lastRequestTime (limiter w') = clock w' /\
    time_at_entry idle_limiter_world <= clock w'.
Proof.
  apply (reset_on_stale_request idle_limiter_world). vm_compute. reflexivity.
Defined.

(** C6, as stated, fails.  With the last request 1500 before the call and
    [Math.random()] at
    0.999, the call sleeps 3997, which is above
    [floor - elapsed + 2000 = 2500]. *)
Lemma natural_delay_exceeds_stated_range :
  let elapsed :=
    time_at_entry hasty_world - lastRequestTime (limiter hasty_world) in
  fair hasty_world /\
  requestCount (limiter hasty_world) < maxRequests /\
  elapsed = 1500 /\
  events (snd (waitIfNeeded hasty_world)) = [Sleep 3997] /\
  ~ (2000 - elapsed <= 3997 <= 2000 - elapsed + 2000).
Proof.
  split; [apply (fair_constant hasty_world (999 # 1000)); reflexivity|].
  vm_compute. repeat split. intros [_ H]. apply H. reflexivity.
Qed.

(** C6, amended. When the count is below the limit and the call is entered
    less than 2000 after the last recorded request, the call sleeps once, for
    a duration in [2000 - elapsed, 4000], and returns no earlier than that. *)
Theorem natural_delay_range (w : World) :
  fair w ->
  requestCount (limiter w) < maxRequests ->
  0 <= time_at_entry w - lastRequestTime (limiter w) < 2000 ->
  exists d w',
    waitIfNeeded w = (Ret tt, w') /\
    events w' = Sleep d :: events w /\
    2000 - (time_at_entry w - lastRequestTime (limiter w)) <= d <= 4000 /\
    time_at_entry w + d <= clock w'.
Proof.
  destruct w as [clk rnd ri lt li vp pf pi fs [last cnt] br ev].
  unfold fair, time_at_entry, waitIfNeeded, reset_if_interval_passed,
    wait_if_limit_hit, natural_delay, record_request, resetInterval,
    maxRequests.
  run_monad. cbn [snd]. world_fields.
  set (now := clk + 0 + Z.of_nat (lt li)). intros Hfair Hcnt Hel.
  pose proof (floor_scaled_range (rnd ri) (4000 - (2000 - (now - last)) + 1)
                (Hfair ri)) as Hfl.
  pose proof (timer_wait_spec
                (Math_floor (rnd ri
                             * inject_Z (4000 - (2000 - (now - last)) + 1))
                 + (2000 - (now - last)))) as Hdelay.
  destruct (Z.gtb_spec (now - last) 60000); [lia|]. run_monad.
  destruct (Z.geb_spec cnt 30); [lia|]. run_monad.
  destruct (Z.ltb_spec (now - last) 2000); [|lia]. run_monad.
  eexists _, _. split; [reflexivity|]. world_fields.
  split; [reflexivity|]. lia.
Qed.

Lemma natural_delay_range_witness :
  exists d w',
    waitIfNeeded hasty_world = (Ret tt, w') /\
    events w' = Sleep d :: events hasty_world /\
    2000 - (time_at_entry hasty_world
            - lastRequestTime (limiter hasty_world)) <= d <= 4000 /\
    time_at_entry hasty_world + d <= clock w'.
Proof.
  apply (natural_delay_range hasty_world).
  - apply (fair_constant hasty_world (999 # 1000)); reflexivity.
  - reflexivity.
  - vm_compute. split; [discriminate|reflexivity].
Defined.

(** ** Response monitoring *)

(** What one call of the listener does, in full. *)
Lemma on_response_run (r : Response) (w : World) :
  let counter :=
    blockedRequests w + (if blocked_url (url r) then 1 else 0) in
  exists w',
    on_response r w =
      (if blocked_url (url r) && (counter >? 3)
       then Throw AutomationBlocked else Ret tt, w') /\
    blockedRequests w' = counter /\
    events w' =
      block_events r counter ++ auth_events r
        ++ rate_limit_events r (cooldown w) ++ events w /\
    clock w' =
      clock w + (if status r =? 429
                 then timer_wait (cooldown w) + Z.of_nat (late w (late_ix w))
                 else 0).
Proof.
  destruct w as [clk rnd ri lt li vp pf pi fs lim br ev].
  destruct r as [st u].
  unfold on_response, block_events, auth_events, rate_limit_events, cooldown,
    blocked_url.
  cbv beta iota zeta delta [status url]. run_monad.
  destruct (st =? 429); destruct ((st =? 401) || (st =? 403));
    destruct (includes u "/blocked" || includes u "/denied");
    run_monad; try destruct (Z.gtb_spec (br + 1) 3); run_monad;
    (eexists; split; [reflexivity|]; world_fields;
     repeat split; try reflexivity; lia).
Qed.

Lemma sleeps_app (new old : list Event) :
  sleeps (new ++ old) = sleeps old ++ sleeps new.
Proof. unfold sleeps. rewrite omap_app. apply rev_app_distr. Qed.

Lemma cooldown_range (w : World) :
  fair w -> 30000 <= cooldown w <= 60000.
Proof.
  intros Hfair. unfold cooldown.
  pose proof (floor_scaled_range (rand w (rand_ix w)) (60000 - 30000 + 1)
                (Hfair _)).
  lia.
Qed.

Lemma blocked_count_cons (r : Response) (rs : list Response) :
  blocked_count (r :: rs) =
  (if blocked_url (url r) then 1 else 0) + blocked_count rs.
Proof.
  unfold blocked_count. cbn [List.filter].
  destruct (blocked_url (url r)); cbn [length]; lia.
Qed.

Lemma blocked_count_nonneg (rs : list Response) : 0 <= blocked_count rs.
Proof. unfold blocked_count. lia. Qed.

Lemma blocked_count_take (k : nat) (rs : list Response) :
  0 <= blocked_count (take k rs) <= blocked_count rs.
Proof.
  split; [apply blocked_count_nonneg|].
  revert k. induction rs as [|r rs IH]; intros [|k]; cbn [take].
  - reflexivity.
  - reflexivity.
  - apply blocked_count_nonneg.
  - rewrite !blocked_count_cons. specialize (IH k). lia.
Qed.

Lemma blocked_count_app (a b : list Response) :
  blocked_count (a ++ b) = blocked_count a + blocked_count b.
Proof.
  unfold blocked_count. rewrite List.filter_app, List.length_app. lia.
Qed.

Lemma blocked_count_snoc (rs : list Response) (r : Response) :
  blocked_count (rs ++ [r]) =
  blocked_count rs + (if blocked_url (url r) then 1 else 0).
Proof.
  rewrite blocked_count_app, blocked_count_cons.
  change (blocked_count []) with 0. lia.
Qed.

(** The listener is its part before the cooldown, the wait, and its part
    after the cooldown. *)
Lemma on_response_in_two_parts (r : Response) (w : World) :
  on_response r w =
  ((if status r =? 429
    then d <- cooldown_start ;; elapse (timer_wait d)
    else ret tt) ;;;
   after_cooldown r) w.
Proof.
  destruct w as [clk rnd ri lt li vp pf pi fs lim br ev].
  destruct r as [st u].
  unfold on_response, after_cooldown, cooldown_start.
  cbv beta iota zeta delta [status url]. run_monad.
  destruct (st =? 429); reflexivity.
Qed.

Lemma cooldown_start_run (w : World) :
  exists d w',
    cooldown_start w = (Ret d, w') /\ blockedRequests w' = blockedRequests w.
Proof.
  destruct w as [clk rnd ri lt li vp pf pi fs lim br ev].
  unfold cooldown_start. run_monad.
  eexists. eexists. split; reflexivity.
Qed.

Lemma after_cooldown_run (r : Response) (w : World) :
  let counter :=
    blockedRequests w + (if blocked_url (url r) then 1 else 0) in
  exists w',
    after_cooldown r w =
      (if blocked_url (url r) && (counter >? 3)
       then Throw AutomationBlocked else Ret tt, w') /\
    blockedRequests w' = counter.
Proof.
  destruct w as [clk rnd ri lt li vp pf pi fs lim br ev].
  destruct r as [st u].
  unfold after_cooldown, blocked_url.
  cbv beta iota zeta delta [status url]. run_monad.
  destruct ((st =? 401) || (st =? 403));
    destruct (includes u "/blocked" || includes u "/denied");
    run_monad; try destruct (Z.gtb_spec (br + 1) 3); run_monad;
    (eexists; split; [reflexivity|]; world_fields; lia).
Qed.

Lemma resume_count (call : nat) (calls : list (nat * Response))
    (r : Response) (rest : list (nat * Response)) :
  resume call calls = Some (r, rest) ->
  blocked_count (map snd calls) =
  (if blocked_url (url r) then 1 else 0) + blocked_count (map snd rest).
Proof.
  revert rest. induction calls as [|[n r0] calls IH]; intros rest;
    cbn [resume]; [discriminate|].
  destruct (Nat.eqb n call).
  - intros [= <- <-]. cbn [map snd]. apply blocked_count_cons.
  - destruct (resume call calls) as [[r' rest']|]; [|discriminate].
    intros [= <- <-]. cbn [map snd]. rewrite !blocked_count_cons.
    rewrite (IH rest' eq_refl). lia.
Qed.

(** A call that ends is the last to count, and ends by the counter it
    leaves. *)
Lemma finished_snoc (calls : list Call) (n : nat) (r : Response)
    (counter : Z) :
  counter = blocked_count (counted calls)
            + (if blocked_url (url r) then 1 else 0) ->
  (forall j c,
     calls !! j = Some c ->
     call_outcome c =
       verdict (call_response c) (take (S j) (counted calls))) ->
  let o := if blocked_url (url r) && (counter >? 3)
           then Throw AutomationBlocked else Ret tt in
  counter = blocked_count (counted (calls ++ [mkCall n r o])) /\
  (forall j c,
     (calls ++ [mkCall n r o]) !! j = Some c ->
     call_outcome c =
       verdict (call_response c)
         (take (S j) (counted (calls ++ [mkCall n r o])))).
Proof.
  intros Hcounter Hold o.
  assert (Hall : counter = blocked_count (counted (calls ++ [mkCall n r o]))).
  { unfold counted. rewrite map_app. cbn [map call_response].
    rewrite blocked_count_snoc. exact Hcounter. }
  split; [exact Hall|].
  intros j c Hj. unfold counted. rewrite map_app.
  destruct (decide (j < length calls)%nat) as [Hlt|Hge].
  - rewrite lookup_app_l in Hj by exact Hlt.
    rewrite take_app_le by (rewrite length_map; lia).
    apply Hold, Hj.
  - rewrite lookup_app_r in Hj by lia.
    destruct (j - length calls)%nat as [|i] eqn:Hi; [|discriminate].
    injection Hj as <-. cbn [call_outcome call_response].
    rewrite take_ge by (rewrite length_app, length_map; cbn; lia).
    rewrite <- map_app. fold (counted (calls ++ [mkCall n r o])).
    unfold verdict. rewrite <- Hall. reflexivity.
Qed.

(** What holds after every turn: the counter is the number of block pages
    among the calls that have ended, every such call ended by the counter it
    left, and the block pages that arrived are those counted and those
    still suspended. *)
Lemma turns_invariant (turns : list Turn) :
  forall (m : Monitoring) (seen : list Response),
    blockedRequests (page_world m) = blocked_count (counted (finished m)) ->
    (forall j c,
       finished m !! j = Some c ->
       call_outcome c =
         verdict (call_response c) (take (S j) (counted (finished m)))) ->
    blocked_count (counted (finished m))
      + blocked_count (map snd (suspended m)) = blocked_count seen ->
    let m' := fold_left turn turns m in
    (forall j c,
       finished m' !! j = Some c ->
       call_outcome c =
         verdict (call_response c) (take (S j) (counted (finished m')))) /\
    blocked_count (counted (finished m'))
      + blocked_count (map snd (suspended m'))
    = blocked_count (seen ++ arrivals turns).
Proof.
  induction turns as [|t turns IH]; intros m seen Hb Hold Hsum; cbn zeta.
  - cbn [fold_left arrivals omap]. rewrite app_nil_r. split; assumption.
  - cbn [fold_left].
    destruct m as [w sus fin n]; cbn [page_world suspended finished arrived] in *.
    destruct t as [r|call]; cbn [turn page_world suspended finished arrived].
    + change (arrivals (Arrives r :: turns)) with (r :: arrivals turns).
      replace (seen ++ r :: arrivals turns)
        with ((seen ++ [r]) ++ arrivals turns)
        by (rewrite <- app_assoc; reflexivity).
      destruct (status r =? 429).
      * destruct (cooldown_start_run w) as (d & w1 & Hrun & Hb1).
        rewrite Hrun. apply IH; cbn [page_world suspended finished arrived].
        -- congruence.
        -- exact Hold.
        -- cbn [map snd]. rewrite blocked_count_cons, blocked_count_snoc.
           lia.
      * destruct (on_response_run r w) as (w1 & Hrun & Hb1 & _).
        rewrite Hrun.
        destruct (finished_snoc fin n r
                    (blockedRequests w + (if blocked_url (url r) then 1 else 0)))
          as [Hall Hnew]; [lia|exact Hold|].
        apply IH; cbn [page_world suspended finished arrived].
        -- congruence.
        -- exact Hnew.
        -- rewrite <- Hall, blocked_count_snoc. lia.
    + change (arrivals (Wakes call :: turns)) with (arrivals turns).
      destruct (resume call sus) as [[r rest]|] eqn:Hres.
      * destruct (after_cooldown_run r w) as (w1 & Hrun & Hb1).
        rewrite Hrun.
        destruct (finished_snoc fin call r
                    (blockedRequests w + (if blocked_url (url r) then 1 else 0)))
          as [Hall Hnew]; [lia|exact Hold|].
        apply IH; cbn [page_world suspended finished arrived].
        -- congruence.
        -- exact Hnew.
        -- rewrite <- Hall. rewrite (resume_count _ _ _ _ Hres) in Hsum. lia.
      * apply IH; assumption.
Qed.

Lemma resume_split (call : nat) (calls : list (nat * Response))
    (r : Response) (rest : list (nat * Response)) :
  resume call calls = Some (r, rest) ->
  exists before after,
    calls = before ++ (call, r) :: after /\ rest = before ++ after.
Proof.
  revert rest. induction calls as [|[n r0] calls IH]; intros rest;
    cbn [resume]; [discriminate|].
  destruct (Nat.eqb_spec n call) as [->|_].
  - intros [= <- <-]. exists [], calls. split; reflexivity.
  - destruct (resume call calls) as [[r' rest']|]; [|discriminate].
    intros [= <- <-]. destruct (IH rest' eq_refl) as (l1 & l2 & -> & ->).
    exists ((n, r0) :: l1), l2. split; reflexivity.
Qed.

(** What holds after every turn: every call, suspended or ended, is the one
    call for a response that has arrived. *)
Lemma turns_calls (turns : list Turn) :
  forall (m : Monitoring) (seen : list Response),
    arrived m = length seen ->
    NoDup (map fst (suspended m) ++ map call_number (finished m)) ->
    (forall n r, (n, r) ∈ suspended m -> seen !! n = Some r) ->
    (forall c, c ∈ finished m ->
               seen !! call_number c = Some (call_response c)) ->
    let m' := fold_left turn turns m in
    NoDup (map call_number (finished m')) /\
    (forall c, c ∈ finished m' ->
       (seen ++ arrivals turns) !! call_number c = Some (call_response c)).
Proof.
  induction turns as [|t turns IH]; intros m seen Harr Hdup Hsus Hfin;
    cbn zeta.
  - cbn [fold_left arrivals omap]. rewrite app_nil_r. split; [|exact Hfin].
    apply NoDup_app in Hdup as (_ & _ & Hdup). exact Hdup.
  - cbn [fold_left].
    destruct m as [w sus fin n]; cbn [page_world suspended finished arrived] in *.
    subst n.
    assert (Hfresh : length seen ∉ map fst sus ++ map call_number fin).
    { intros Hin. apply elem_of_app in Hin as [Hin|Hin];
        apply list_elem_of_fmap in Hin as (x & Hx & Hin).
      - destruct x as [k r]. cbn in Hx. subst k.
        apply Hsus, lookup_lt_Some in Hin. lia.
      - apply Hfin, lookup_lt_Some in Hin. lia. }
    destruct t as [r|call]; cbn [turn page_world suspended finished arrived].
    + change (arrivals (Arrives r :: turns)) with (r :: arrivals turns).
      replace (seen ++ r :: arrivals turns)
        with ((seen ++ [r]) ++ arrivals turns)
        by (rewrite <- app_assoc; reflexivity).
      assert (Hlast : (seen ++ [r]) !! length seen = Some r).
      { rewrite lookup_app_r by lia. rewrite Nat.sub_diag. reflexivity. }
      destruct (status r =? 429).
      * destruct (cooldown_start w) as [o w1].
        apply IH; cbn [page_world suspended finished arrived].
        -- rewrite length_app. cbn. lia.
        -- cbn [map fst app]. apply NoDup_cons. split; assumption.
        -- intros k r' Hin. apply elem_of_cons in Hin as [[= -> ->]|Hin];
             [exact Hlast|].
           apply lookup_app_l_Some, Hsus, Hin.
        -- intros c Hin. apply lookup_app_l_Some, Hfin, Hin.
      * destruct (on_response r w) as [o w1].
        apply IH; cbn [page_world suspended finished arrived].
        -- rewrite length_app. cbn. lia.
        -- rewrite map_app. cbn [map call_number].
           assert (Hperm :
             map fst sus ++ map call_number fin ++ [length seen]
             ≡ₚ length seen :: map fst sus ++ map call_number fin).
           { rewrite app_assoc. symmetry. apply Permutation_cons_append. }
           rewrite Hperm. apply NoDup_cons. split; assumption.
        -- intros k r' Hin. apply lookup_app_l_Some, Hsus, Hin.
        -- intros c Hin. apply elem_of_app in Hin as [Hin|Hin].
           ++ apply lookup_app_l_Some, Hfin, Hin.
           ++ apply list_elem_of_singleton in Hin as ->. exact Hlast.
    + change (arrivals (Wakes call :: turns)) with (arrivals turns).
      destruct (resume call sus) as [[r rest]|] eqn:Hres.
      * apply resume_split in Hres as (l1 & l2 & -> & ->).
        destruct (after_cooldown r w) as [o w1].
        apply IH; cbn [page_world suspended finished arrived].
        -- reflexivity.
        -- rewrite !map_app in *. cbn [map fst call_number] in *.
           assert (Hperm :
             (map fst l1 ++ map fst l2) ++ map call_number fin ++ [call]
             ≡ₚ (map fst l1 ++ call :: map fst l2) ++ map call_number fin).
           { rewrite <- !app_assoc. apply Permutation_app_head.
             cbn [app]. rewrite app_assoc.
             symmetry. apply Permutation_cons_append. }
           rewrite Hperm. exact Hdup.
        -- intros k r' Hin. apply Hsus.
           apply elem_of_app in Hin as [Hin|Hin];
             apply elem_of_app; [left|right]; [exact Hin|].
           apply elem_of_cons. right. exact Hin.
        -- intros c Hin. apply elem_of_app in Hin as [Hin|Hin].
           ++ apply Hfin, Hin.
           ++ apply list_elem_of_singleton in Hin as ->.
              cbn [call_number call_response]. apply Hsus.
              apply elem_of_app. right. apply elem_of_cons. left.
              reflexivity.
      * apply IH; [reflexivity|assumption..].
Qed.

(** When no block page has status 429, no suspended call has a block page,
    the counter is the number of block pages that have arrived, and the call
    for a response of another status has ended by that number. *)
Lemma turns_in_order (turns : list Turn) :
  forall (m : Monitoring) (seen : list Response),
    Forall (fun r => blocked_url (url r) = true -> status r <> 429)
      (arrivals turns) ->
    arrived m = length seen ->
    blockedRequests (page_world m) = blocked_count seen ->
    Forall (fun p => blocked_url (url (snd p)) = false) (suspended m) ->
    (forall k r,
       seen !! k = Some r -> status r <> 429 ->
       mkCall k r (verdict r (take (S k) seen)) ∈ finished m) ->
    let m' := fold_left turn turns m in
    forall k r,
      (seen ++ arrivals turns) !! k = Some r -> status r <> 429 ->
      mkCall k r (verdict r (take (S k) (seen ++ arrivals turns)))
        ∈ finished m'.
Proof.
  induction turns as [|t turns IH]; intros m seen Hno Harr Hb Hsus Hfin;
    cbn zeta.
  - cbn [fold_left arrivals omap]. rewrite app_nil_r. exact Hfin.
  - cbn [fold_left].
    destruct m as [w sus fin n]; cbn [page_world suspended finished arrived] in *.
    subst n.
    destruct t as [r|call]; cbn [turn page_world suspended finished arrived].
    + change (arrivals (Arrives r :: turns)) with (r :: arrivals turns) in *.
      apply Forall_cons in Hno as [Hr Hno].
      replace (seen ++ r :: arrivals turns)
        with ((seen ++ [r]) ++ arrivals turns)
        by (rewrite <- app_assoc; reflexivity).
      assert (Hold : forall k r',
                seen !! k = Some r' ->
                take (S k) (seen ++ [r]) = take (S k) seen).
      { intros k r' Hk. apply take_app_le.
        apply lookup_lt_Some in Hk. lia. }
      destruct (Z.eqb_spec (status r) 429) as [Heq|Hne].
      * assert (Hplain : blocked_url (url r) = false).
        { destruct (blocked_url (url r)); [|reflexivity].
          exfalso. apply Hr; [reflexivity|exact Heq]. }
        destruct (cooldown_start_run w) as (d & w1 & Hrun & Hb1).
        rewrite Hrun. apply IH; cbn [page_world suspended finished arrived].
        -- exact Hno.
        -- rewrite length_app. cbn. lia.
        -- rewrite Hb1, Hb, blocked_count_snoc, Hplain. lia.
        -- constructor; [exact Hplain|exact Hsus].
        -- intros k r' Hk Hst.
           destruct (decide (k < length seen)%nat) as [Hlt|Hge].
           ++ rewrite lookup_app_l in Hk by exact Hlt.
              rewrite (Hold k r' Hk). apply Hfin; assumption.
           ++ rewrite lookup_app_r in Hk by lia.
              destruct (k - length seen)%nat; [|discriminate].
              injection Hk as <-. contradiction.
      * destruct (on_response_run r w) as (w1 & Hrun & Hb1 & _).
        rewrite Hrun. apply IH; cbn [page_world suspended finished arrived].
        -- exact Hno.
        -- rewrite length_app. cbn. lia.
        -- rewrite Hb1, Hb, blocked_count_snoc. reflexivity.
        -- exact Hsus.
        -- intros k r' Hk Hst.
           destruct (decide (k < length seen)%nat) as [Hlt|Hge].
           ++ rewrite lookup_app_l in Hk by exact Hlt.
              rewrite (Hold k r' Hk). apply elem_of_app. left.
              apply Hfin; assumption.
           ++ rewrite lookup_app_r in Hk by lia.
              destruct (k - length seen)%nat eqn:Hi; [|discriminate].
              injection Hk as <-. apply elem_of_app. right.
              apply list_elem_of_singleton.
              replace k with (length seen) by lia.
              rewrite take_ge by (rewrite length_app; cbn; lia).
              unfold verdict. rewrite blocked_count_snoc, <- Hb.
              reflexivity.
    + change (arrivals (Wakes call :: turns)) with (arrivals turns) in *.
      destruct (resume call sus) as [[r rest]|] eqn:Hres.
      * apply resume_split in Hres as (l1 & l2 & -> & ->).
        apply Forall_app in Hsus as [Hl1 Hl2].
        apply Forall_cons in Hl2 as [Hplain Hl2]. cbn [snd] in Hplain.
        destruct (after_cooldown_run r w) as (w1 & Hrun & Hb1).
        rewrite Hrun. apply IH; cbn [page_world suspended finished arrived].
        -- exact Hno.
        -- reflexivity.
        -- rewrite Hb1, Hb, Hplain. lia.
        -- apply Forall_app. split; assumption.
        -- intros k r' Hk Hst. apply elem_of_app. left.
           apply Hfin; assumption.
      * apply IH; [assumption|reflexivity|assumption..].
Qed.

(** In this session the fourth block page to arrive is handled by call 3,
    which returns; the error is thrown by call 0, for the first response,
    when its cooldown is over. *)
Lemma fourth_block_page_does_not_raise :
  arrivals blocked_during_cooldown
  = [rate_limited_block_page; block_page; block_page; block_page] /\
  blocked_count (arrivals blocked_during_cooldown) = 4 /\
  finished (monitor blocked_during_cooldown calm_world)
  = [mkCall 1 block_page (Ret tt); mkCall 2 block_page (Ret tt);
     mkCall 3 block_page (Ret tt);
     mkCall 0 rate_limited_block_page (Throw AutomationBlocked)].
Proof. vm_compute. repeat split. Qed.

(** C2, amended. In one monitored session, whenever the responses arrive and
    whenever the cooldowns end: every call that has ended is the one call
    for a response that arrived; a call throws the fatal error exactly when
    its response has a block-page URL and, of the calls that have ended up
    to and including it, more than 3 had such a response; with at most 3
    block pages among the responses no call ever throws; and when no block
    page has status 429, the call for a response of another status has
    ended, and it threw exactly when that response is a block page and more
    than 3 block pages have arrived up to and including it. *)
Theorem blocked_requests_counted (turns : list Turn) (w : World) :
  let calls := finished (monitor turns w) in
  (NoDup (map call_number calls) /\
   forall c, c ∈ calls ->
     arrivals turns !! call_number c = Some (call_response c)) /\
  (forall j c,
     calls !! j = Some c ->
     call_outcome c =
       verdict (call_response c) (take (S j) (counted calls))) /\
  (blocked_count (arrivals turns) <= 3 ->
   Forall (fun c => call_outcome c = Ret tt) calls) /\
  (Forall (fun r => blocked_url (url r) = true -> status r <> 429)
     (arrivals turns) ->
   forall k r,
     arrivals turns !! k = Some r -> status r <> 429 ->
     mkCall k r (verdict r (take (S k) (arrivals turns))) ∈ calls).
Proof.
  cbn zeta. unfold monitor, setupRequestMonitoring.
  set (m0 := mkMonitoring (snd (set_blockedRequests 0 w)) [] [] 0).
  destruct (turns_invariant turns m0 []) as [Hcalls Hsum].
  { reflexivity. }
  { intros j c Hj. discriminate. }
  { reflexivity. }
  cbn zeta in Hcalls, Hsum. cbn [app] in Hsum.
  split; [|split; [exact Hcalls|split]].
  - apply (turns_calls turns m0 []).
    + reflexivity.
    + constructor.
    + intros n r Hin. apply elem_of_nil in Hin. contradiction.
    + intros c Hin. apply elem_of_nil in Hin. contradiction.
  - intros Hfew. apply Forall_lookup. intros j c Hj.
    rewrite (Hcalls j c Hj). unfold verdict.
    pose proof (blocked_count_take (S j)
                  (counted (finished (fold_left turn turns m0)))).
    pose proof (blocked_count_nonneg
                  (map snd (suspended (fold_left turn turns m0)))).
    destruct (Z.gtb_spec
                (blocked_count
                   (take (S j) (counted (finished (fold_left turn turns m0)))))
                3); [lia|].
    rewrite andb_false_r. reflexivity.
  - intros Hno. apply (turns_in_order turns m0 [] Hno).
    + reflexivity.
    + reflexivity.
    + constructor.
    + intros k r Hk. discriminate.
Qed.

Lemma blocked_requests_counted_witness :
  mkCall 4 block_page (Throw AutomationBlocked)
  ∈ finished (monitor [Arrives block_page; Arrives (mkResponse 429 "/api");
                       Arrives block_page; Arrives block_page;
                       Arrives block_page; Wakes 1] calm_world).
Proof.
  apply (blocked_requests_counted
           [Arrives block_page; Arrives (mkResponse 429 "/api");
            Arrives block_page; Arrives block_page; Arrives block_page;
            Wakes 1] calm_world).
  - repeat constructor; vm_compute; discriminate.
  - reflexivity.
  - vm_compute. discriminate.
Defined.

(** C3. A response with status 429 makes the listener sleep once, for a
    duration between 30000 and 60000, and the listener is done no earlier
    than that; a response with any other status adds no sleep and takes no
    time. *)
Theorem cooldown_on_429 (r : Response) (w : World) :
  fair w ->
  (status r = 429 ->
   exists d,
     sleeps (events (snd (on_response r w))) = sleeps (events w) ++ [d] /\
     30000 <= d <= 60000 /\
     clock w + d <= clock (snd (on_response r w))) /\
  (status r <> 429 ->
   sleeps (events (snd (on_response r w))) = sleeps (events w) /\
   clock (snd (on_response r w)) = clock w).
Proof.
  intros Hfair.
  destruct (on_response_run r w) as (w' & Hrun & _ & Hev & Hclk).
  rewrite Hrun. cbn [snd]. rewrite Hev, Hclk.
  rewrite !sleeps_app.
  assert (Hblock : forall c, sleeps (block_events r c) = []).
  { intros c. unfold block_events.
    destruct (blocked_url (url r) && (c >? 3)); reflexivity. }
  assert (Hauth : sleeps (auth_events r) = []).
  { unfold auth_events.
    destruct ((status r =? 401) || (status r =? 403)); reflexivity. }
  rewrite Hblock, Hauth, !app_nil_r. unfold rate_limit_events.
  pose proof (cooldown_range w Hfair) as Hd.
  pose proof (timer_wait_spec (cooldown w)) as Hwait.
  split.
  - intros H429. rewrite H429. change (429 =? 429) with true. cbv iota.
    exists (cooldown w). split; [reflexivity|]. lia.
  - intros Hother. apply Z.eqb_neq in Hother. rewrite Hother.
    split; [apply app_nil_r | lia].
Qed.

Lemma cooldown_on_429_witness :
  (status rate_limited_block_page = 429 ->
   exists d,
     sleeps (events (snd (on_response rate_limited_block_page calm_world)))
       = sleeps (events calm_world) ++ [d] /\
     30000 <= d <= 60000 /\
     clock calm_world + d
       <= clock (snd (on_response rate_limited_block_page calm_world))) /\
  (status rate_limited_block_page <> 429 ->
   sleeps (events (snd (on_response rate_limited_block_page calm_world)))
     = sleeps (events calm_world) /\
   clock (snd (on_response rate_limited_block_page calm_world))
     = clock calm_world).
Proof.
  apply (cooldown_on_429 rate_limited_block_page calm_world).
  apply (fair_constant calm_world 0); reflexivity.
Defined.

(** C7, as stated, fails.  A response with status 429 and a block-page URL
    gets the cooldown of the first check and is also counted by the third. *)
Lemma later_check_still_counts :
  status rate_limited_block_page = 429 /\
  blocked_url (url rate_limited_block_page) = true /\
  blockedRequests calm_world = 0 /\
  on_response rate_limited_block_page calm_world =
    (Ret tt, snd (on_response rate_limited_block_page calm_world)) /\
  events (snd (on_response rate_limited_block_page calm_world)) =
    [Sleep 30000; ConsoleWarn rate_limit_warning] /\
  blockedRequests (snd (on_response rate_limited_block_page calm_world)) = 1.
Proof. vm_compute. repeat split. Qed.

(** C7, amended. The three checks run one after the other for every
    response and each takes effect by its own condition alone: the cooldown
    for status 429, the warning for status 401 or 403, and, for a block-page
    URL whatever the status, the increment of the counter with the fatal
    error once the counter is above 3. *)
Theorem checks_are_independent (r : Response) (w : World) :
  let counter :=
    blockedRequests w + (if blocked_url (url r) then 1 else 0) in
  fst (on_response r w) =
    (if blocked_url (url r) && (counter >? 3)
     then Throw AutomationBlocked else Ret tt) /\
  blockedRequests (snd (on_response r w)) = counter /\
  events (snd (on_response r w)) =
    block_events r counter ++ auth_events r
      ++ rate_limit_events r (cooldown w) ++ events w.
Proof.
  destruct (on_response_run r w) as (w' & Hrun & Hb & Hev & _).
  cbv zeta. rewrite Hrun. cbn [fst snd]. auto.
Qed.

(** ** Behaviour simulation: failures of input actions *)

Lemma steady_refl (w : World) : steady w w.
Proof. unfold steady. auto. Qed.

Lemma steady_fair (w w' : World) : steady w w' -> fair w -> fair w'.
Proof. intros (Hr & _) Hf k. rewrite Hr. apply Hf. Qed.

Lemma steady_trans (w1 w2 w3 : World) :
  steady w1 w2 -> steady w2 w3 -> steady w1 w3.
Proof.
  unfold steady. intros (Hr1 & Hp1 & Hi1) (Hr2 & Hp2 & Hi2).
  rewrite Hr2, Hp2. repeat split; auto. lia.
Qed.

Lemma accepted_upto_trans (w1 w2 : World) (n : nat) :
  steady w1 w2 -> accepted_upto w1 (page_ix w2) -> accepted_upto w2 n ->
  accepted_upto w1 n.
Proof.
  intros (_ & Hp & Hi) H1 H2 k Hk.
  destruct (Nat.lt_ge_cases k (page_ix w2)) as [Hlt|Hge].
  - apply H1. lia.
  - rewrite <- Hp. apply H2. lia.
Qed.

Lemma propagates_ret {A} (a : A) : propagates (ret a).
Proof.
  intros w _. cbn. split; [apply steady_refl|]. intros k Hk. lia.
Qed.

Lemma propagates_bind {A B} (m : M A) (k : A -> M B) :
  propagates m -> (forall a, propagates (k a)) -> propagates (bind m k).
Proof.
  intros Hm Hk w Hfair. unfold bind. specialize (Hm w Hfair).
  destruct (m w) as [[a|e] w1]; [|exact Hm].
  destruct Hm as [Hst Hacc].
  specialize (Hk a w1 (steady_fair _ _ Hst Hfair)).
  destruct (k a w1) as [[b|e] w2].
  - destruct Hk as [Hst2 Hacc2]. split; [eapply steady_trans; eauto|].
    eapply accepted_upto_trans; eauto.
  - destruct Hk as (Hst2 & He & Hlt & Hf & Hacc2 & Hev).
    destruct Hst as (Hr & Hp & Hi).
    split; [eapply steady_trans; [split; eauto|]; eauto|].
    split; [exact He|]. split; [lia|].
    split; [rewrite <- Hp; exact Hf|]. split; [|exact Hev].
    eapply accepted_upto_trans; [split; eauto| |]; eauto.
Qed.

Lemma propagates_random_bind {B} (k : Q -> M B) :
  (forall r, unit_interval r -> propagates (k r)) ->
  propagates (bind Math_random k).
Proof.
  intros Hk w Hfair. unfold bind, Math_random.
  set (w1 := mkWorld _ _ _ _ _ _ _ _ _ _ _ _).
  assert (Hst : steady w w1) by (unfold steady; cbn; auto).
  specialize (Hk _ (Hfair (rand_ix w)) w1 (steady_fair _ _ Hst Hfair)).
  destruct (k (rand w (rand_ix w)) w1) as [[b|e] w2].
  - destruct Hk as [Hst2 Hacc2]. split; [eapply steady_trans; eauto|].
    eapply accepted_upto_trans; eauto. intros j Hj. cbn in Hj. lia.
  - destruct Hk as (Hst2 & He & Hlt & Hf & Hacc2 & Hev).
    split; [eapply steady_trans; eauto|]. split; [exact He|].
    split; [exact Hlt|]. split; [exact Hf|]. split; [exact Hacc2|exact Hev].
Qed.

Lemma propagates_sleep (ms : Z) : propagates (sleep ms).
Proof.
  intros w _. unfold sleep, bind, emit, elapse. cbn.
  split; [unfold steady; cbn; auto|]. intros k Hk. cbn in Hk. lia.
Qed.

Lemma propagates_randomDelay (min max : Z) : propagates (randomDelay min max).
Proof.
  unfold randomDelay. apply propagates_random_bind. intros r _.
  apply propagates_sleep.
Qed.

Lemma propagates_viewportSize : propagates page_viewportSize.
Proof.
  intros w _. cbn. split; [apply steady_refl|]. intros k Hk. lia.
Qed.

Lemma propagates_page_action (e : Event) : propagates (page_action e).
Proof.
  intros w _. unfold page_action.
  destruct (page_fault w (page_ix w)) eqn:Hf; cbn.
  - split; [unfold steady; cbn; auto|]. split; [reflexivity|].
    split; [lia|]. split; [exact Hf|]. split; [|eauto].
    intros k Hk. lia.
  - split; [unfold steady; cbn; auto|]. intros k Hk.
    assert (k = page_ix w) as -> by lia. exact Hf.
Qed.

Lemma propagates_repeatM (n : nat) (body : M unit) :
  propagates body -> propagates (repeatM n body).
Proof.
  intros Hb. induction n as [|n IH]; cbn [repeatM].
  - apply propagates_ret.
  - apply propagates_bind; auto.
Qed.

Lemma propagates_collectM {A} (n : nat) (item : M A) :
  propagates item -> propagates (collectM n item).
Proof.
  intros Hi. induction n as [|n IH]; cbn [collectM].
  - apply propagates_ret.
  - apply propagates_bind; [exact Hi|]. intros a.
    apply propagates_bind; [exact IH|]. intros rest. apply propagates_ret.
Qed.

Lemma propagates_forM {A} (xs : list A) (body : A -> M unit) :
  (forall x, propagates (body x)) -> propagates (forM xs body).
Proof.
  intros Hb. induction xs as [|x xs IH]; cbn [forM].
  - apply propagates_ret.
  - apply propagates_bind; auto.
Qed.

Lemma propagates_central_coordinate (size : Z) :
  propagates (central_coordinate size).
Proof.
  unfold central_coordinate. apply propagates_random_bind. intros r _.
  apply propagates_ret.
Qed.

Lemma propagates_simulateMouseMovement : propagates simulateMouseMovement.
Proof.
  unfold simulateMouseMovement.
  apply propagates_bind; [apply propagates_viewportSize|].
  intros [[width height]|]; [|apply propagates_ret].
  apply propagates_random_bind. intros r _.
  apply propagates_bind.
  - apply propagates_collectM.
    apply propagates_bind; [apply propagates_central_coordinate|]. intros x.
    apply propagates_bind; [apply propagates_central_coordinate|]. intros y.
    apply propagates_ret.
  - intros points. apply propagates_forM. intros point.
    apply propagates_random_bind. intros r' _.
    apply propagates_bind; [apply propagates_page_action|]. intros _.
    apply propagates_randomDelay.
Qed.

Lemma propagates_humanScroll : propagates humanScroll.
Proof.
  unfold humanScroll. apply propagates_random_bind. intros r _.
  apply propagates_repeatM.
  apply propagates_random_bind. intros r1 _.
  apply propagates_bind; [apply propagates_page_action|]. intros _.
  apply propagates_bind; [apply propagates_randomDelay|]. intros _.
  apply propagates_random_bind. intros r2 _.
  destruct (Qlt_le_dec (7 # 10) r2); [|apply propagates_ret].
  apply propagates_bind; [apply propagates_page_action|]. intros _.
  apply propagates_randomDelay.
Qed.

Lemma propagates_random_click : propagates random_click.
Proof.
  unfold random_click.
  apply propagates_bind; [apply propagates_viewportSize|].
  intros [[width height]|]; [|apply propagates_ret].
  apply propagates_bind; [apply propagates_central_coordinate|]. intros x.
  apply propagates_bind; [apply propagates_central_coordinate|]. intros y.
  apply propagates_page_action.
Qed.

Lemma propagates_actions : Forall propagates actions.
Proof.
  unfold actions.
  constructor; [apply propagates_simulateMouseMovement|].
  constructor; [apply propagates_humanScroll|].
  constructor; [apply propagates_page_action|].
  constructor; [apply propagates_page_action|].
  constructor; [apply propagates_random_click|].
  constructor.
Qed.

Lemma js_index_elem {A} (xs : list A) (i : Z) (a : A) :
  js_index xs i = Some a -> a ∈ xs.
Proof.
  unfold js_index. destruct (i <? 0); [discriminate|].
  intros H. eapply list_elem_of_lookup_2, H.
Qed.

(** A random index into [actions] always finds an action. *)
Lemma random_action_defined (r : Q) :
  unit_interval r ->
  exists action,
    js_index actions (Math_floor (r * inject_Z (Z.of_nat (length actions))))
      = Some action.
Proof.
  intros Hr.
  pose proof (floor_scaled_range r (Z.of_nat (length actions)) Hr) as Hi.
  change (Z.of_nat (length actions)) with 5 in *.
  set (i := Math_floor (r * inject_Z 5)) in *.
  assert (Hcases : i = 0 \/ i = 1 \/ i = 2 \/ i = 3 \/ i = 4) by lia.
  destruct Hcases as [->|[->|[->|[->| ->]]]]; eexists; reflexivity.
Qed.

Lemma propagates_simulateRealisticBehavior :
  propagates simulateRealisticBehavior.
Proof.
  unfold simulateRealisticBehavior. apply propagates_random_bind. intros r _.
  apply propagates_repeatM.
  apply propagates_random_bind. intros r1 Hr1.
  apply propagates_bind; [|intros _; apply propagates_randomDelay].
  destruct (random_action_defined r1 Hr1) as [action Ha]. rewrite Ha.
  apply js_index_elem in Ha.
  pose proof propagates_actions as Hall. rewrite Forall_forall in Hall.
  apply Hall, Ha.
Qed.

(** C4, as stated, fails.  On a closed page each of the three operations
    throws to its caller. *)
Lemma closed_page_failure_is_raised :
  fair closed_page_world /\
  simulateMouseMovement closed_page_world =
    (Throw TargetClosed, snd (simulateMouseMovement closed_page_world)) /\
  humanScroll closed_page_world =
    (Throw TargetClosed, snd (humanScroll closed_page_world)) /\
  simulateRealisticBehavior closed_page_world =
    (Throw TargetClosed, snd (simulateRealisticBehavior closed_page_world)).
Proof.
  split; [apply (fair_constant closed_page_world 0); reflexivity|].
  vm_compute. repeat split.
Qed.

(** C4, amended. Each of the three operations either completes with every
    input action accepted, or stops at the first input action that is
    rejected and throws that rejection to its caller: nothing is attempted
    or logged after the rejected action, and nothing is swallowed. *)
Theorem failure_reaches_caller (op : M unit) (w : World) :
  In op behaviours -> fair w ->
  match op w with
  | (Ret _, w') => accepted_upto w (page_ix w')
  | (Throw e, w') =>
      e = TargetClosed /\
      (page_ix w < page_ix w')%nat /\
      page_fault w (pred (page_ix w')) = true /\
      accepted_upto w (pred (page_ix w')) /\
      exists a rest, events w' = Rejected a :: rest
  end.
Proof.
  intros Hop Hfair.
  assert (Hp : propagates op).
  { destruct Hop as [<-|[<-|[<-|[]]]].
    - apply propagates_simulateMouseMovement.
    - apply propagates_humanScroll.
    - apply propagates_simulateRealisticBehavior. }
  specialize (Hp w Hfair). destruct (op w) as [[[]|e] w']; tauto.
Qed.

Lemma failure_reaches_caller_witness :
  match simulateRealisticBehavior closing_page_world with
  | (Ret _, w') => accepted_upto closing_page_world (page_ix w')
  | (Throw e, w') =>
      e = TargetClosed /\
      (page_ix closing_page_world < page_ix w')%nat /\
      page_fault closing_page_world (pred (page_ix w')) = true /\
      accepted_upto closing_page_world (pred (page_ix w')) /\
      exists a rest, events w' = Rejected a :: rest
  end.
Proof.
  apply (failure_reaches_caller simulateRealisticBehavior closing_page_world).
  - simpl. auto.
  - apply (fair_constant closing_page_world 0); reflexivity.
Defined.

(** ** Behaviour simulation: pages without viewport *)

Lemma clickless_ret {A} (a : A) : clickless (ret a).
Proof. intros w Hv. cbn. auto. Qed.

Lemma clickless_throw {A} (e : JsError) : clickless (@throw A e).
Proof. intros w Hv. cbn. auto. Qed.

Lemma clickless_bind {A B} (m : M A) (k : A -> M B) :
  clickless m -> (forall a, clickless (k a)) -> clickless (bind m k).
Proof.
  intros Hm Hk w Hv. unfold bind. specialize (Hm w Hv).
  destruct (m w) as [[a|e] w1]; cbn [snd] in *; [|exact Hm].
  destruct Hm as [Hv1 Hc1]. specialize (Hk a w1 Hv1).
  destruct Hk as [Hv2 Hc2]. split; [exact Hv2|]. congruence.
Qed.

Lemma clickless_viewport_bind {B} (k : option (Z * Z) -> M B) :
  clickless (k None) -> clickless (bind page_viewportSize k).
Proof.
  intros Hk w Hv. unfold bind, page_viewportSize. rewrite Hv. apply Hk, Hv.
Qed.

Lemma clickless_random : clickless Math_random.
Proof. intros w Hv. cbn. auto. Qed.

Lemma clickless_sleep (ms : Z) : clickless (sleep ms).
Proof. intros w Hv. cbn. auto. Qed.

Lemma clickless_randomDelay (min max : Z) : clickless (randomDelay min max).
Proof.
  unfold randomDelay. apply clickless_bind; [apply clickless_random|].
  intros r. apply clickless_sleep.
Qed.

Lemma clickless_page_action (e : Event) :
  is_click e = false -> clickless (page_action e).
Proof.
  intros He w Hv. unfold page_action.
  destruct (page_fault w (page_ix w)); cbn; rewrite He; auto.
Qed.

Lemma clickless_repeatM (n : nat) (body : M unit) :
  clickless body -> clickless (repeatM n body).
Proof.
  intros Hb. induction n as [|n IH]; cbn [repeatM].
  - apply clickless_ret.
  - apply clickless_bind; auto.
Qed.

Lemma clickless_simulateMouseMovement : clickless simulateMouseMovement.
Proof.
  unfold simulateMouseMovement. apply clickless_viewport_bind, clickless_ret.
Qed.

Lemma clickless_humanScroll : clickless humanScroll.
Proof.
  unfold humanScroll. apply clickless_bind; [apply clickless_random|].
  intros r. apply clickless_repeatM.
  apply clickless_bind; [apply clickless_random|]. intros r1.
  apply clickless_bind; [apply clickless_page_action; reflexivity|]. intros _.
  apply clickless_bind; [apply clickless_randomDelay|]. intros _.
  apply clickless_bind; [apply clickless_random|]. intros r2.
  destruct (Qlt_le_dec (7 # 10) r2); [|apply clickless_ret].
  apply clickless_bind; [apply clickless_page_action; reflexivity|]. intros _.
  apply clickless_randomDelay.
Qed.

Lemma clickless_random_click : clickless random_click.
Proof.
  unfold random_click. apply clickless_viewport_bind, clickless_ret.
Qed.

Lemma clickless_actions : Forall clickless actions.
Proof.
  unfold actions.
  constructor; [apply clickless_simulateMouseMovement|].
  constructor; [apply clickless_humanScroll|].
  constructor; [apply clickless_page_action; reflexivity|].
  constructor; [apply clickless_page_action; reflexivity|].
  constructor; [apply clickless_random_click|].
  constructor.
Qed.

Lemma clickless_simulateRealisticBehavior :
  clickless simulateRealisticBehavior.
Proof.
  unfold simulateRealisticBehavior.
  apply clickless_bind; [apply clickless_random|]. intros r.
  apply clickless_repeatM.
  apply clickless_bind; [apply clickless_random|]. intros r1.
  apply clickless_bind; [|intros _; apply clickless_randomDelay].
  destruct (js_index actions _) as [action|] eqn:Ha; [|apply clickless_throw].
  apply js_index_elem in Ha.
  pose proof clickless_actions as Hall. rewrite Forall_forall in Hall.
  apply Hall, Ha.
Qed.

(** C10. On a page without viewport, [simulateMouseMovement] returns at once
    and changes nothing: no pointer movement, no delay, no error, no random
    number drawn.  The random-click entry of [actions] does nothing either,
    and a whole run of [simulateRealisticBehavior] adds no click to the
    log. *)
Theorem no_viewport_no_pointer (w : World) :
  viewport w = None ->
  simulateMouseMovement w = (Ret tt, w) /\
  actions !! 4%nat = Some random_click /\
  random_click w = (Ret tt, w) /\
  clicks (events (snd (simulateRealisticBehavior w))) = clicks (events w).
Proof.
  intros Hv. repeat split.
  - unfold simulateMouseMovement, bind, page_viewportSize. rewrite Hv.
    reflexivity.
  - unfold random_click, bind, page_viewportSize. rewrite Hv. reflexivity.
  - apply clickless_simulateRealisticBehavior, Hv.
Qed.

Lemma no_viewport_no_pointer_witness :
  simulateMouseMovement no_viewport_world = (Ret tt, no_viewport_world) /\
  actions !! 4%nat = Some random_click /\
  random_click no_viewport_world = (Ret tt, no_viewport_world) /\
  clicks (events (snd (simulateRealisticBehavior no_viewport_world)))
    = clicks (events no_viewport_world).
Proof. apply (no_viewport_no_pointer no_viewport_world). reflexivity. Defined.

(** ** Fingerprint getters *)

(** C9, as stated, fails.  Two reads of [navigator.hardwareConcurrency] in
    one session give 2 and
    then 8; two reads of [screen.availWidth] give 1920 and then 1915. *)
Lemma repeated_reads_differ :
  fair varying_world /\
  fst (read_twice get_hardwareConcurrency varying_world)
    = Ret (Some 2, Some 8) /\
  fst (read_twice (get_availWidth full_hd) varying_world)
    = Ret (1920, 1915) /\
  fst (read_twice (get_availHeight full_hd) varying_world)
    = Ret (1040, 1020).
Proof.
  split.
  - intros [|k]; apply unit_interval_check; reflexivity.
  - vm_compute. repeat split.
Qed.

(** C9, amended. Every read of an overridden property draws a new random
    number: a read of [hardwareConcurrency] gives one of 2, 4, 8, 16, a read
    of [availWidth] a value in [width - 9, width], a read of [availHeight] a
    value in [height - 79, height - 40], each chosen by the draw of that
    read, so that the second of two reads is chosen by the draw after the
    one that chose the first. *)
Theorem reads_draw_afresh (screen : Screen) (w : World) :
  fair w ->
  let r1 := rand w (rand_ix w) in
  let r2 := rand w (S (rand_ix w)) in
  (exists a b,
     fst (read_twice get_hardwareConcurrency w) = Ret (Some a, Some b) /\
     Some a = js_index [2; 4; 8; 16] (Math_floor (r1 * 4)) /\
     Some b = js_index [2; 4; 8; 16] (Math_floor (r2 * 4)) /\
     In a [2; 4; 8; 16] /\ In b [2; 4; 8; 16]) /\
  (exists a b,
     fst (read_twice (get_availWidth screen) w) = Ret (a, b) /\
     a = width screen - Math_floor (r1 * 10) /\
     b = width screen - Math_floor (r2 * 10) /\
     width screen - 9 <= a <= width screen /\
     width screen - 9 <= b <= width screen) /\
  (exists a b,
     fst (read_twice (get_availHeight screen) w) = Ret (a, b) /\
     a = height screen - Math_floor (r1 * 40) - 40 /\
     b = height screen - Math_floor (r2 * 40) - 40 /\
     height screen - 79 <= a <= height screen - 40 /\
     height screen - 79 <= b <= height screen - 40).
Proof.
  intros Hfair r1 r2.
  assert (H1 : unit_interval r1) by apply Hfair.
  assert (H2 : unit_interval r2) by apply Hfair.
  assert (Hpick : forall r, unit_interval r ->
            exists a, js_index [2; 4; 8; 16] (Math_floor (r * 4)) = Some a
                      /\ In a [2; 4; 8; 16]).
  { intros r Hr. pose proof (floor_scaled_range r 4 Hr) as Hi.
    change (inject_Z 4) with 4%Q in Hi.
    set (i := Math_floor (r * 4)) in *.
    assert (Hc : i = 0 \/ i = 1 \/ i = 2 \/ i = 3) by lia.
    destruct Hc as [->|[->|[->| ->]]]; eexists; (split; [reflexivity|]);
      simpl; auto. }
  split; [|split].
  - destruct (Hpick r1 H1) as (a & Ha & Hina).
    destruct (Hpick r2 H2) as (b & Hb & Hinb).
    exists a, b. rewrite <- Ha, <- Hb. repeat split; auto.
  - pose proof (floor_scaled_range r1 10 H1).
    pose proof (floor_scaled_range r2 10 H2).
    eexists _, _. split; [reflexivity|].
    change (inject_Z 10) with 10%Q in *. cbn [rand rand_ix]. fold r1 r2.
    repeat split; lia.
  - pose proof (floor_scaled_range r1 40 H1).
    pose proof (floor_scaled_range r2 40 H2).
    eexists _, _. split; [reflexivity|].
    change (inject_Z 40) with 40%Q in *. cbn [rand rand_ix]. fold r1 r2.
    repeat split; lia.
Qed.

Lemma reads_draw_afresh_witness :
  let r1 := rand varying_world (rand_ix varying_world) in
  let r2 := rand varying_world (S (rand_ix varying_world)) in
  (exists a b,
     fst (read_twice get_hardwareConcurrency varying_world)
       = Ret (Some a, Some b) /\
     Some a = js_index [2; 4; 8; 16] (Math_floor (r1 * 4)) /\
     Some b = js_index [2; 4; 8; 16] (Math_floor (r2 * 4)) /\
     In a [2; 4; 8; 16] /\ In b [2; 4; 8; 16]) /\
  (exists a b,
     fst (read_twice (get_availWidth full_hd) varying_world) = Ret (a, b) /\
     a = width full_hd - Math_floor (r1 * 10) /\
     b = width full_hd - Math_floor (r2 * 10) /\
     width full_hd - 9 <= a <= width full_hd /\
     width full_hd - 9 <= b <= width full_hd) /\
  (exists a b,
     fst (read_twice (get_availHeight full_hd) varying_world) = Ret (a, b) /\
     a = height full_hd - Math_floor (r1 * 40) - 40 /\
     b = height full_hd - Math_floor (r2 * 40) - 40 /\
     height full_hd - 79 <= a <= height full_hd - 40 /\
     height full_hd - 79 <= b <= height full_hd - 40).
Proof.
  apply (reads_draw_afresh full_hd varying_world).
  intros [|k]; apply unit_interval_check; reflexivity.
Defined.

(** ** Session loading *)

Section SessionStoreProperties.

Variable JSON_parse : string -> JsError + JsValue.

(** [loadSession] case by case. *)
Lemma loadSession_run (sessionPath : string) (w : World) :
  loadSession JSON_parse sessionPath w =
  match node_fs w with
  | None => (Ret JsNull, warned w)
  | Some files =>
      match files !! sessionPath with
      | None => (Ret JsNull, w)
      | Some Unreadable => (Ret JsNull, warned w)
      | Some (RegularFile text) =>
          match JSON_parse text with
          | inr v => (Ret v, w)
          | inl _ => (Ret JsNull, warned w)
          end
      end
  end.
Proof.
  unfold loadSession, try_catch, bind, import_fs, fs_existsSync,
    fs_readFileSync, JSON_parse_call, warned.
  destruct (node_fs w) as [files|]; [|reflexivity].
  destruct (files !! sessionPath) as [[text|]|] eqn:Hlook.
  - rewrite bool_decide_eq_true_2 by eauto.
    unfold ret, throw. destruct (JSON_parse text); reflexivity.
  - rewrite bool_decide_eq_true_2 by eauto. reflexivity.
  - rewrite bool_decide_eq_false_2 by (intros [? ?]; discriminate).
    reflexivity.
Qed.

(** C8. [loadSession] always returns and never throws.  It returns the
    parsed state when the file exists and parses, and [null] when the file
    does not exist or its content does not parse (the parse failure is
    logged); any result other than [null] is the parsed content of the
    file at that path. *)
Theorem loadSession_never_raises (sessionPath : string) (w : World) :
  (exists v, fst (loadSession JSON_parse sessionPath w) = Ret v) /\
  (forall files text v,
     node_fs w = Some files ->
     files !! sessionPath = Some (RegularFile text) ->
     JSON_parse text = inr v ->
     loadSession JSON_parse sessionPath w = (Ret v, w)) /\
  (forall files,
     node_fs w = Some files ->
     files !! sessionPath = None ->
     loadSession JSON_parse sessionPath w = (Ret JsNull, w)) /\
  (forall files text e,
     node_fs w = Some files ->
     files !! sessionPath = Some (RegularFile text) ->
     JSON_parse text = inl e ->
     fst (loadSession JSON_parse sessionPath w) = Ret JsNull /\
     events (snd (loadSession JSON_parse sessionPath w)) =
       ConsoleWarn "Could not load session:" :: events w) /\
  (forall v,
     fst (loadSession JSON_parse sessionPath w) = Ret v ->
     v = JsNull \/
     exists files text,
       node_fs w = Some files /\
       files !! sessionPath = Some (RegularFile text) /\
       JSON_parse text = inr v).
Proof.
  rewrite loadSession_run.
  split; [|split; [|split; [|split]]].
  - destruct (node_fs w) as [files|]; [|eauto].
    destruct (files !! sessionPath) as [[text|]|]; eauto.
    destruct (JSON_parse text); eauto.
  - intros files text v -> -> ->. reflexivity.
  - intros files -> ->. reflexivity.
  - intros files text e -> -> ->. split; reflexivity.
  - intros v. destruct (node_fs w) as [files|]; cbn [fst].
    + destruct (files !! sessionPath) as [[text|]|] eqn:Hlook; cbn [fst].
      * destruct (JSON_parse text) as [e|v'] eqn:Hparse; cbn [fst];
          intros [= <-]; eauto 6.
      * intros [= <-]. auto.
      * intros [= <-]. auto.
    + intros [= <-]. auto.
Qed.

End SessionStoreProperties.

Lemma loadSession_never_raises_witness :
  loadSession toy_JSON_parse "./data/mls-session.json" disk_world
    = (Ret (JsObject []), disk_world) /\
  loadSession toy_JSON_parse "./data/none.json" disk_world
    = (Ret JsNull, disk_world) /\
  fst (loadSession toy_JSON_parse "./data/broken.json" disk_world)
    = Ret JsNull.
Proof.
  pose proof (loadSession_never_raises toy_JSON_parse
                "./data/mls-session.json" disk_world) as (_ & Hgood & _).
  pose proof (loadSession_never_raises toy_JSON_parse
                "./data/none.json" disk_world) as (_ & _ & Hnone & _).
  pose proof (loadSession_never_raises toy_JSON_parse
                "./data/broken.json" disk_world) as (_ & _ & _ & Hbad & _).
  split; [|split].
  - apply (Hgood sample_files "{}"); vm_compute; reflexivity.
  - apply (Hnone sample_files); vm_compute; reflexivity.
  - apply (Hbad sample_files "{oops" SyntaxError); vm_compute; reflexivity.
Defined.

(** * Further properties *)

(** ** Strings *)

Lemma prefix_spec (t s : string) :
  String.prefix t s = true <-> exists post, s = t +:+ post.
Proof.
  revert s. induction t as [|a t IH]; intros s.
  - split; [intros _; exists s; reflexivity|]. intros _. destruct s; reflexivity.
  - destruct s as [|b s]; cbn [String.prefix].
    + split; [discriminate|]. intros [post H]. discriminate.
    + destruct (Ascii.ascii_dec a b) as [<-|Hne].
      * rewrite IH. split; intros [post H]; exists post.
        -- cbn. rewrite H. reflexivity.
        -- cbn in H. injection H as H. exact H.
      * split; [discriminate|]. intros [post H]. cbn in H.
        injection H as H1 H2. congruence.
Qed.

(** [s.includes(t)] holds exactly when [t] occurs somewhere in [s]. *)
Lemma includes_spec (s t : string) :
  includes s t = true <-> exists pre post, s = pre +:+ t +:+ post.
Proof.
  split.
  - induction s as [|c s IH]; cbn [includes]; intros H.
    + apply orb_true_iff in H as [H|H]; [|discriminate].
      apply prefix_spec in H as [post H]. exists EmptyString, post. exact H.
    + apply orb_true_iff in H as [H|H].
      * apply prefix_spec in H as [post H]. exists EmptyString, post. exact H.
      * destruct (IH H) as (pre & post & ->).
        exists (String c pre), post. reflexivity.
  - intros (pre & post & ->). induction pre as [|c pre IH].
    + change (EmptyString +:+ t +:+ post) with (t +:+ post).
      assert (Hp : String.prefix t (t +:+ post) = true)
        by (apply prefix_spec; eauto).
      revert Hp. generalize (t +:+ post). intros u Hp.
      destruct u; cbn [includes]; rewrite Hp; reflexivity.
    + change (String c pre +:+ t +:+ post)
        with (String c (pre +:+ t +:+ post)).
      cbn [includes]. rewrite IH. apply orb_true_r.
Qed.

(** ** RateLimiter, continued *)

(** X1. From any state whatever, a call returns without throwing; it leaves
    a count of at most 30 that is 1 or one more than before, the time of
    its return as the last request time, and a clock that has not gone
    back. *)
Theorem waitIfNeeded_always_returns (w : World) :
  exists w',
    waitIfNeeded w = (Ret tt, w') /\
    requestCount (limiter w') <= maxRequests /\
    (requestCount (limiter w') = 1 \/
     requestCount (limiter w') = requestCount (limiter w) + 1) /\
    lastRequestTime (limiter w') = clock w' /\
    clock w <= clock w'.
Proof.
  destruct w as [clk rnd ri lt li vp pf pi fs [last cnt] br ev].
  unfold waitIfNeeded, reset_if_interval_passed, wait_if_limit_hit,
    natural_delay, record_request, resetInterval, maxRequests.
  run_monad.
  set (now := clk + 0 + Z.of_nat (lt li)).
  pose proof (timer_wait_spec (60000 - (now - last))) as [Hwait _].
  pose proof (timer_wait_spec
                (Math_floor (rnd ri
                             * inject_Z (4000 - (2000 - (now - last)) + 1))
                 + (2000 - (now - last)))) as [Hdelay _].
  assert (Hnow : clk <= now) by (subst now; lia).
  destruct (Z.gtb_spec (now - last) 60000) as [Hr|Hr]; run_monad.
  - change (0 >=? 30) with false. run_monad.
    destruct (Z.ltb_spec (now - last) 2000); [lia|]. run_monad.
    eexists; split; [reflexivity|]. world_fields. repeat split; auto; lia.
  - destruct (Z.geb_spec cnt 30) as [Hc|Hc]; run_monad;
      destruct (Z.ltb_spec (now - last) 2000) as [Hs|Hs]; run_monad;
      (eexists; split; [reflexivity|]; world_fields;
       repeat split; auto; lia).
Qed.

(** X2. A call entered when the clock is not behind the last recorded request
    returns, and the time already passed since that request together with
    the sleeps the call asks for comes to at least 2000. *)
Theorem enough_delay_asked (w : World) :
  fair w -> lastRequestTime (limiter w) <= time_at_entry w ->
  exists new w',
    waitIfNeeded w = (Ret tt, w') /\
    events w' = new ++ events w /\
    2000 <= time_at_entry w - lastRequestTime (limiter w) + asked new.
Proof.
  destruct w as [clk rnd ri lt li vp pf pi fs [last cnt] br ev].
  unfold fair, time_at_entry, waitIfNeeded, reset_if_interval_passed,
    wait_if_limit_hit, natural_delay, record_request, resetInterval,
    maxRequests.
  run_monad. cbn [snd]. world_fields.
  set (now := clk + 0 + Z.of_nat (lt li)). intros Hfair Hclk.
  pose proof (floor_scaled_range (rnd ri) (4000 - (2000 - (now - last)) + 1)
                (Hfair ri)) as Hfl.
  destruct (Z.gtb_spec (now - last) 60000) as [Hr|Hr]; run_monad.
  - change (0 >=? 30) with false. run_monad.
    destruct (Z.ltb_spec (now - last) 2000); [lia|]. run_monad.
    exists []. eexists. split; [reflexivity|]. world_fields.
    split; [reflexivity|]. change (asked []) with 0. lia.
  - destruct (Z.geb_spec cnt 30) as [Hc|Hc]; run_monad;
      destruct (Z.ltb_spec (now - last) 2000) as [Hs|Hs]; run_monad.
    + eexists [_; _; _]. eexists. split; [reflexivity|]. world_fields.
      split; [reflexivity|]. unfold asked, sleeps. cbn -[Math_floor Qmult inject_Z]. lia.
    + eexists [_; _]. eexists. split; [reflexivity|]. world_fields.
      split; [reflexivity|]. unfold asked, sleeps. cbn -[Math_floor Qmult inject_Z]. lia.
    + eexists [_]. eexists. split; [reflexivity|]. world_fields.
      split; [reflexivity|]. unfold asked, sleeps. cbn -[Math_floor Qmult inject_Z]. lia.
    + exists []. eexists. split; [reflexivity|]. world_fields.
      split; [reflexivity|]. change (asked []) with 0. lia.
Qed.

Lemma enough_delay_asked_witness :
  exists new w',
    waitIfNeeded hasty_world = (Ret tt, w') /\
    events w' = new ++ events hasty_world /\
    2000 <= time_at_entry hasty_world
            - lastRequestTime (limiter hasty_world) + asked new.
Proof.
  apply (enough_delay_asked hasty_world).
  - apply (fair_constant hasty_world (999 # 1000)); reflexivity.
  - vm_compute. discriminate.
Defined.

(** X3. Once the count has reached the limit, a call entered no more than
    an interval after the last recorded request logs the wait and asks
    first for a sleep of what is left of the interval; after that it asks
    for at most one more sleep, and it returns with a new count of 1. *)
Theorem limit_wait_asked (w : World) :
  maxRequests <= requestCount (limiter w) ->
  time_at_entry w - lastRequestTime (limiter w) <= resetInterval ->
  exists later w',
    waitIfNeeded w = (Ret tt, w') /\
    requestCount (limiter w') = 1 /\
    events w' =
      later ++
      [Sleep (resetInterval
              - (time_at_entry w - lastRequestTime (limiter w)));
       ConsoleLog "Rate limit reached. Waiting"] ++ events w /\
    (later = [] \/ exists d, later = [Sleep d]).
Proof.
  destruct w as [clk rnd ri lt li vp pf pi fs [last cnt] br ev].
  unfold time_at_entry, waitIfNeeded, reset_if_interval_passed,
    wait_if_limit_hit, natural_delay, record_request, resetInterval,
    maxRequests.
  run_monad. cbn [snd]. world_fields.
  set (now := clk + 0 + Z.of_nat (lt li)). intros Hcnt Hin.
  destruct (Z.gtb_spec (now - last) 60000) as [Hr|Hr]; [lia|]. run_monad.
  destruct (Z.geb_spec cnt 30) as [_|?]; [|lia]. run_monad.
  destruct (Z.ltb_spec (now - last) 2000) as [Hs|Hs]; run_monad.
  - eexists [_]. eexists. split; [reflexivity|]. world_fields.
    split; [reflexivity|]. split; [reflexivity|]. right. eexists. reflexivity.
  - exists []. eexists. split; [reflexivity|]. world_fields.
    split; [reflexivity|]. split; [reflexivity|]. left. reflexivity.
Qed.

Lemma limit_wait_asked_witness :
  exists later w',
    waitIfNeeded (snd (serial_calls 30 calm_world)) = (Ret tt, w') /\
    requestCount (limiter w') = 1 /\
    events w' =
      later ++
      [Sleep (resetInterval
              - (time_at_entry (snd (serial_calls 30 calm_world))
                 - lastRequestTime
                     (limiter (snd (serial_calls 30 calm_world)))));
       ConsoleLog "Rate limit reached. Waiting"]
      ++ events (snd (serial_calls 30 calm_world)) /\
    (later = [] \/ exists d, later = [Sleep d]).
Proof.
  apply (limit_wait_asked (snd (serial_calls 30 calm_world)));
    vm_compute; discriminate.
Defined.

(** X4. A call entered at least 2000 after the last recorded request, with
    the count below the limit, returns without sleeping, logging or drawing
    a random number: the count becomes 1 when more than an interval has
    passed and grows by one otherwise. *)
Theorem no_wait_when_paced (w : World) :
  requestCount (limiter w) < maxRequests ->
  2000 <= time_at_entry w - lastRequestTime (limiter w) ->
  exists w',
    waitIfNeeded w = (Ret tt, w') /\
    events w' = events w /\
    rand_ix w' = rand_ix w /\
    requestCount (limiter w') =
      (if time_at_entry w - lastRequestTime (limiter w) >? resetInterval
       then 1 else requestCount (limiter w) + 1).
Proof.
  destruct w as [clk rnd ri lt li vp pf pi fs [last cnt] br ev].
  unfold time_at_entry, waitIfNeeded, reset_if_interval_passed,
    wait_if_limit_hit, natural_delay, record_request, resetInterval,
    maxRequests.
  run_monad. cbn [snd]. world_fields.
  set (now := clk + 0 + Z.of_nat (lt li)). intros Hcnt Hel.
  destruct (Z.gtb_spec (now - last) 60000) as [Hr|Hr]; run_monad.
  - change (0 >=? 30) with false. run_monad.
    destruct (Z.ltb_spec (now - last) 2000); [lia|]. run_monad.
    eexists; split; [reflexivity|]. world_fields. repeat split.
  - destruct (Z.geb_spec cnt 30); [lia|]. run_monad.
    destruct (Z.ltb_spec (now - last) 2000); [lia|]. run_monad.
    eexists; split; [reflexivity|]. world_fields. repeat split.
Qed.

Lemma no_wait_when_paced_witness :
  exists w',
    waitIfNeeded idle_limiter_world = (Ret tt, w') /\
    events w' = events idle_limiter_world /\
    rand_ix w' = rand_ix idle_limiter_world /\
    requestCount (limiter w') =
      (if time_at_entry idle_limiter_world
          - lastRequestTime (limiter idle_limiter_world) >? resetInterval
       then 1 else requestCount (limiter idle_limiter_world) + 1).
Proof.
  apply (no_wait_when_paced idle_limiter_world); vm_compute;
    [reflexivity|discriminate].
Defined.

(** ** randomDelay *)

(** X5. [randomDelay(min, max)] with [min <= max] draws one random number,
    asks for one sleep, of a whole number of milliseconds between [min] and
    [max] inclusive, and returns. *)
Theorem randomDelay_range (min max : Z) (w : World) :
  fair w -> min <= max ->
  exists d w',
    randomDelay min max w = (Ret tt, w') /\
    events w' = Sleep d :: events w /\
    min <= d <= max /\
    rand_ix w' = S (rand_ix w).
Proof.
  destruct w as [clk rnd ri lt li vp pf pi fs lim br ev].
  unfold fair. world_fields. intros Hfair Hle. run_monad.
  pose proof (floor_scaled_range (rnd ri) (max - min + 1) (Hfair _)) as Hfl.
  eexists _, _. split; [reflexivity|]. world_fields.
  split; [reflexivity|]. repeat split; lia.
Qed.

Lemma randomDelay_range_witness :
  exists d w',
    randomDelay 5000 10000 hasty_world = (Ret tt, w') /\
    events w' = Sleep d :: events hasty_world /\
    5000 <= d <= 10000 /\
    rand_ix w' = S (rand_ix hasty_world).
Proof.
  apply (randomDelay_range 5000 10000 hasty_world).
  - apply (fair_constant hasty_world (999 # 1000)); reflexivity.
  - vm_compute. discriminate.
Defined.

(** ** Response monitoring, continued *)

Lemma on_response_rand (r : Response) (w : World) :
  rand (snd (on_response r w)) = rand w.
Proof.
  destruct w as [clk rnd ri lt li vp pf pi fs lim br ev].
  destruct r as [st u]. unfold on_response.
  cbv beta iota zeta delta [status url]. run_monad.
  destruct (st =? 429); destruct ((st =? 401) || (st =? 403));
    destruct (includes u "/blocked" || includes u "/denied");
    run_monad; try destruct (br + 1 >? 3); reflexivity.
Qed.


Lemma rate_limited_count_cons (r : Response) (rs : list Response) :
  rate_limited_count (r :: rs) =
  (if status r =? 429 then 1 else 0) + rate_limited_count rs.
Proof.
  unfold rate_limited_count. cbn [List.filter].
  destruct (status r =? 429); cbn [length]; lia.
Qed.



(** Sleeps of a run of listener calls. *)
Lemma emit_responses_sleeps (rs : list Response) :
  forall w,
    fair w ->
    exists ds,
      sleeps (events (snd (emit_responses rs w))) = sleeps (events w) ++ ds /\
      Z.of_nat (length ds) = rate_limited_count rs /\
      Forall (fun d => 30000 <= d <= 60000) ds.
Proof.
  induction rs as [|r rs IH]; intros w Hfair.
  - exists []. cbn. rewrite app_nil_r. repeat split. constructor.
  - cbn [emit_responses].
    destruct (on_response_run r w) as (w1 & Hrun & _ & Hev & _).
    pose proof (on_response_rand r w) as Hrand.
    rewrite Hrun in Hrand |- *. cbn [snd] in Hrand.
    assert (Hfair1 : fair w1) by (intros k; rewrite Hrand; apply Hfair).
    destruct (IH w1 Hfair1) as (ds & Hds & Hlen & Hall).
    destruct (emit_responses rs w1) as [os w2]. cbn [snd] in *.
    rewrite Hds, Hev, !sleeps_app, rate_limited_count_cons.
    assert (Hblock : forall c, sleeps (block_events r c) = []).
    { intros c. unfold block_events.
      destruct (blocked_url (url r) && (c >? 3)); reflexivity. }
    assert (Hauth : sleeps (auth_events r) = []).
    { unfold auth_events.
      destruct ((status r =? 401) || (status r =? 403)); reflexivity. }
    rewrite Hblock, Hauth, !app_nil_r. unfold rate_limit_events.
    destruct (status r =? 429).
    + exists (cooldown w :: ds). rewrite <- app_assoc.
      split; [reflexivity|]. split; [cbn [length]; lia|].
      constructor; [apply cooldown_range, Hfair|exact Hall].
    + exists ds. rewrite app_nil_r. split; [reflexivity|]. split; [lia|].
      exact Hall.
Qed.

(** X7. Over a monitored session the listener sleeps once for every
    response with status 429, each time between 30000 and 60000, and never
    otherwise. *)
Theorem session_cooldowns (rs : list Response) (w : World) :
  fair w ->
  exists ds,
    sleeps (events (after_session rs w)) = sleeps (events w) ++ ds /\
    Z.of_nat (length ds) = rate_limited_count rs /\
    Forall (fun d => 30000 <= d <= 60000) ds.
Proof.
  intros Hfair. unfold after_session, setupRequestMonitoring.
  apply (emit_responses_sleeps rs (snd (set_blockedRequests 0 w))).
  exact Hfair.
Qed.

Lemma session_cooldowns_witness :
  exists ds,
    sleeps (events (after_session
                      [rate_limited_block_page; plain_page;
                       rate_limited_block_page] calm_world))
      = sleeps (events calm_world) ++ ds /\
    Z.of_nat (length ds)
      = rate_limited_count
          [rate_limited_block_page; plain_page; rate_limited_block_page] /\
    Forall (fun d => 30000 <= d <= 60000) ds.
Proof.
  apply (session_cooldowns
           [rate_limited_block_page; plain_page; rate_limited_block_page]
           calm_world).
  apply (fair_constant calm_world 0); reflexivity.
Defined.

(** X8. A response is counted as blocked exactly when "/blocked" or
    "/denied" occurs anywhere in its URL: in the host, the path or the
    query alike, and whatever its status. *)
Theorem block_page_anywhere (r : Response) (w : World) :
  blockedRequests (snd (on_response r w)) = blockedRequests w + 1 <->
  exists pre post,
    url r = pre +:+ "/blocked" +:+ post \/
    url r = pre +:+ "/denied" +:+ post.
Proof.
  destruct (on_response_run r w) as (w' & Hrun & Hb & _).
  rewrite Hrun. cbn [snd]. rewrite Hb.
  assert (Hurl : blocked_url (url r) = true <->
                 exists pre post,
                   url r = pre +:+ "/blocked" +:+ post \/
                   url r = pre +:+ "/denied" +:+ post).
  { unfold blocked_url. rewrite orb_true_iff, !includes_spec.
    split.
    - intros [(pre & post & H)|(pre & post & H)]; exists pre, post; auto.
    - intros (pre & post & [H|H]); [left|right]; eauto. }
  rewrite <- Hurl. destruct (blocked_url (url r)); split; intros H;
    try reflexivity; try discriminate; lia.
Qed.

(** ** Mouse jiggler *)

Lemma jiggler_tick_returns (w : World) :
  exists w',
    jiggler_tick w = (Ret tt, w') /\
    (page_ix w <= page_ix w' <= S (page_ix w))%nat.
Proof.
  unfold jiggler_tick, try_catch, bind, page_viewportSize.
  destruct (viewport w) as [[W H]|].
  - unfold Math_random, page_mouse_move, page_action, ret.
    cbv beta iota zeta delta [page_fault page_ix].
    destruct w as [clk rnd ri lt li vp pf pi fs lim br ev].
    destruct (pf pi); eexists; (split; [reflexivity|]); cbn; lia.
  - exists w. split; [reflexivity|]. lia.
Qed.

(** X9. The jiggler never throws: whatever happens to the page, every
    firing of its timer completes, having attempted at most one input
    action. *)
Theorem jiggler_never_throws (intervalMs : Z) (n : nat) (w : World) :
  exists w',
    startMouseJiggler intervalMs n w = (Ret tt, w') /\
    (page_ix w <= page_ix w' <= page_ix w + n)%nat.
Proof.
  revert w. unfold startMouseJiggler.
  induction n as [|n IH]; intros w; cbn [repeatM].
  - exists w. split; [reflexivity|]. lia.
  - unfold bind at 1. unfold bind at 1. unfold elapse at 1.
    set (w0 := mkWorld _ _ _ _ _ _ _ _ _ _ _ _).
    destruct (jiggler_tick_returns w0) as (w1 & Htick & Hix). rewrite Htick.
    destruct (IH w1) as (w2 & Hrest & Hix2). exists w2.
    split; [exact Hrest|]. change (page_ix w0) with (page_ix w) in Hix. lia.
Qed.

(** X10. On an open page with a viewport, a firing of the jiggler moves the
    pointer in five steps to a point with whole coordinates inside the
    viewport, [0 <= x < width] and [0 <= y < height], and does nothing
    else. *)
Theorem jiggler_stays_in_viewport (w : World) (width height : Z) :
  fair w -> viewport w = Some (width, height) ->
  0 < width -> 0 < height ->
  page_fault w (page_ix w) = false ->
  exists x y,
    events (snd (jiggler_tick w)) =
      MouseMove (inject_Z x) (inject_Z y) 5 :: events w /\
    0 <= x < width /\ 0 <= y < height.
Proof.
  intros Hfair Hv Hw Hh Hok.
  unfold jiggler_tick, try_catch, bind, page_viewportSize. rewrite Hv.
  unfold Math_random, page_mouse_move, page_action, ret.
  cbv beta iota zeta delta [page_fault page_ix rand rand_ix events].
  destruct w as [clk rnd ri lt li vp pf pi fs lim br ev].
  cbn in Hok. rewrite Hok. cbn [snd events].
  pose proof (floor_scaled_range (rnd ri) width (Hfair ri) Hw).
  pose proof (floor_scaled_range (rnd (S ri)) height (Hfair (S ri)) Hh).
  eexists _, _. split; [reflexivity|]. lia.
Qed.

Lemma jiggler_stays_in_viewport_witness :
  exists x y,
    events (snd (jiggler_tick varying_world)) =
      MouseMove (inject_Z x) (inject_Z y) 5 :: events varying_world /\
    0 <= x < 1280 /\ 0 <= y < 720.
Proof.
  apply (jiggler_stays_in_viewport varying_world 1280 720);
    try reflexivity.
  intros [|k]; apply unit_interval_check; reflexivity.
Defined.

(** ** CAPTCHA detection *)

(** What decides a scan: the first selector that matches or rejects. *)
Lemma detectCaptcha_from_first (document : string -> JsError + Z)
    (before after : list string) (s : string) (w : World) :
  Forall (fun p => exists n, document p = inr n /\ n <= 0) before ->
  detectCaptcha_from document (before ++ s :: after) w =
    match document s with
    | inl e => (Throw e, w)
    | inr n =>
        if n >? 0
        then (Ret true, snd (emit (ConsoleWarn captcha_warning) w))
        else detectCaptcha_from document after w
    end.
Proof.
  induction 1 as [|p rest (n & Hp & Hn) _ IH]; cbn [app detectCaptcha_from].
  - unfold bind, locator_count. destruct (document s) as [e|n]; [reflexivity|].
    unfold ret at 1. destruct (n >? 0); reflexivity.
  - unfold bind at 1, locator_count at 1. rewrite Hp. unfold ret at 1.
    destruct (Z.gtb_spec n 0); [lia|]. exact IH.
Qed.

(** X11. When every query succeeds, [detectCaptcha] returns [true] exactly
    when one of its six selectors matches at least one element.  It then
    logs one warning; otherwise it leaves everything as it was: it neither
    waits nor changes any state. *)
Theorem detectCaptcha_finds_markers (counts : string -> Z) (w : World) :
  let found := existsb (fun s => counts s >? 0) captchaSelectors in
  (found = true <-> exists s, In s captchaSelectors /\ 0 < counts s) /\
  detectCaptcha (fun s => inr (counts s)) w =
    (Ret found,
     if found then snd (emit (ConsoleWarn captcha_warning) w) else w).
Proof.
  cbv zeta. split.
  - rewrite existsb_exists. split; intros (s & Hin & Hs); exists s;
      (split; [exact Hin|]); destruct (Z.gtb_spec (counts s) 0);
      try lia; try discriminate; reflexivity.
  - unfold detectCaptcha. generalize captchaSelectors.
    induction l as [|s rest IH]; cbn [detectCaptcha_from existsb];
      [reflexivity|].
    unfold bind at 1, locator_count at 1, ret at 1.
    destruct (counts s >? 0); [reflexivity|]. exact IH.
Qed.

(** X12. The selectors are tried in order and the first that matches or
    whose query rejects decides: a rejection before any match is thrown to
    the caller, and after a match no further query is made, so a later
    rejection cannot occur. *)
Theorem detectCaptcha_first_decides
    (document : string -> JsError + Z) (before after : list string)
    (s : string) (w : World) :
  captchaSelectors = before ++ s :: after ->
  Forall (fun p => exists n, document p = inr n /\ n <= 0) before ->
  (forall e, document s = inl e -> detectCaptcha document w = (Throw e, w)) /\
  (forall n, document s = inr n -> 0 < n ->
     detectCaptcha document w =
       (Ret true, snd (emit (ConsoleWarn captcha_warning) w))).
Proof.
  intros Hsel Hbefore. unfold detectCaptcha. rewrite Hsel.
  rewrite (detectCaptcha_from_first document before after s w Hbefore).
  split.
  - intros e ->. reflexivity.
  - intros n -> Hn. destruct (Z.gtb_spec n 0); [reflexivity|lia].
Qed.

Lemma detectCaptcha_first_decides_witness :
  (forall e, recaptcha_document ".g-recaptcha" = inl e ->
     detectCaptcha recaptcha_document calm_world = (Throw e, calm_world)) /\
  (forall n, recaptcha_document ".g-recaptcha" = inr n -> 0 < n ->
     detectCaptcha recaptcha_document calm_world =
       (Ret true, snd (emit (ConsoleWarn captcha_warning) calm_world))).
Proof.
  apply (detectCaptcha_first_decides recaptcha_document
           (firstn 2 captchaSelectors) (skipn 3 captchaSelectors)
           ".g-recaptcha" calm_world).
  - reflexivity.
  - repeat constructor; exists 0; (split; [reflexivity|lia]).
Defined.

(** ** The added battery *)

(** X14. The battery that the added [getBattery] reports has a level of at
    least a half and at most one, a discharging time between 3600 and
    14399, and a charging time that is infinite or between 0 and 3599. *)
Theorem battery_ranges (w : World) :
  fair w ->
  exists b,
    fst (getBattery w) = Ret b /\
    ((1 # 2) <= level b)%Q /\ (level b <= 1)%Q /\
    3600 <= dischargingTime b <= 14399 /\
    (forall t, chargingTime b = Some t -> 0 <= t <= 3599).
Proof.
  intros Hfair. unfold getBattery.
  destruct w as [clk rnd ri lt li vp pf pi fs lim br ev].
  unfold fair in Hfair. world_fields. run_monad.
  destruct (Qlt_le_dec (1 # 2) (rnd (S ri))) as [Hinf|Hfin]; run_monad.
  - eexists. split; [reflexivity|]. cbn [level dischargingTime chargingTime].
    destruct (Hfair (S (S (S ri)))) as [Hlo Hhi].
    pose proof (floor_scaled_range (rnd (S (S ri))) 10800 (Hfair _) eq_refl).
    change (inject_Z 10800) with 10800%Q in *.
    split; [|split; [|split; [lia|discriminate]]].
    + rewrite <- (Qplus_0_r (1 # 2)) at 1. apply Qplus_le_r.
      apply Qmult_le_0_compat; [exact Hlo|discriminate].
    + apply Qle_trans with ((1 # 2) + 1 * (1 # 2))%Q; [|discriminate].
      apply Qplus_le_r. apply Qmult_le_compat_r; [|discriminate].
      apply Qlt_le_weak, Hhi.
  - eexists. split; [reflexivity|]. cbn [level dischargingTime chargingTime].
    destruct (Hfair (S (S (S (S ri))))) as [Hlo Hhi].
    pose proof (floor_scaled_range (rnd (S (S (S ri)))) 10800 (Hfair _) eq_refl).
    pose proof (floor_scaled_range (rnd (S (S ri))) 3600 (Hfair _) eq_refl).
    change (inject_Z 10800) with 10800%Q in *.
    change (inject_Z 3600) with 3600%Q in *.
    split; [|split; [|split; [lia|]]].
    + rewrite <- (Qplus_0_r (1 # 2)) at 1. apply Qplus_le_r.
      apply Qmult_le_0_compat; [exact Hlo|discriminate].
    + apply Qle_trans with ((1 # 2) + 1 * (1 # 2))%Q; [|discriminate].
      apply Qplus_le_r. apply Qmult_le_compat_r; [|discriminate].
      apply Qlt_le_weak, Hhi.
    + intros t Ht.
      replace t with (Math_floor (rnd (S (S ri)) * 3600)) by congruence.
      lia.
Qed.

Lemma battery_ranges_witness :
  exists b,
    fst (getBattery varying_world) = Ret b /\
    ((1 # 2) <= level b)%Q /\ (level b <= 1)%Q /\
    3600 <= dischargingTime b <= 14399 /\
    (forall t, chargingTime b = Some t -> 0 <= t <= 3599).
Proof.
  apply (battery_ranges varying_world).
  intros [|k]; apply unit_interval_check; reflexivity.
Defined.

(** ** Request blocking *)

(** X15. Every routed request gets exactly one answer, and it is allowed to
    continue exactly when its resource type is none of image, stylesheet and
    font and none of the five tracker names occurs anywhere in its URL. *)
Theorem route_answered_once (request : Request) :
  length (route_handler request) = 1%nat /\
  (route_handler request = [RouteContinue] <->
   ~ In (resourceType request) blocked_resource_types /\
   forall marker pre post,
     In marker tracker_markers ->
     request_url request <> pre +:+ marker +:+ post).
Proof.
  unfold route_handler. cbv zeta.
  assert (Htype : existsb (String.eqb (resourceType request))
                    blocked_resource_types = true
                  <-> In (resourceType request) blocked_resource_types).
  { rewrite existsb_exists. split.
    - intros (t & Hin & Heq). apply String.eqb_eq in Heq. congruence.
    - intros Hin. exists (resourceType request). split; [exact Hin|].
      apply String.eqb_refl. }
  assert (Hurl : includes (request_url request) "google-analytics"
                 || includes (request_url request) "googletagmanager"
                 || includes (request_url request) "facebook.com"
                 || includes (request_url request) "doubleclick"
                 || includes (request_url request) "adsystem" = true
                 <-> exists marker pre post,
                       In marker tracker_markers /\
                       request_url request = pre +:+ marker +:+ post).
  { rewrite !orb_true_iff, !includes_spec. unfold tracker_markers. split.
    - intros [[[[H|H]|H]|H]|H]; destruct H as (pre & post & H);
        eexists _, pre, post; (split; [|exact H]); simpl; auto 6.
    - intros (marker & pre & post & Hin & H). simpl in Hin.
      destruct Hin as [<-|[<-|[<-|[<-|[<-|[]]]]]]; eauto 10. }
  destruct (existsb _ blocked_resource_types).
  - split; [reflexivity|]. split; [discriminate|].
    intros [Hno _]. exfalso. apply Hno, Htype. reflexivity.
  - destruct (_ || _) eqn:Hany.
    + split; [reflexivity|]. split; [discriminate|].
      intros [_ Hno]. destruct (proj1 Hurl eq_refl)
        as (marker & pre & post & Hin & H).
      exfalso. exact (Hno marker pre post Hin H).
    + split; [reflexivity|]. split; [intros _|reflexivity]. split.
      * intros Hin. apply Htype in Hin. discriminate.
      * intros marker pre post Hin H.
        assert (Hc : false = true) by (apply Hurl; eauto 6). discriminate.
Qed.

(** ** Behaviour simulation: bounds *)

Lemma yields_ret (vp : option (Z * Z)) (P : Event -> Prop) {A}
    (V : A -> Prop) (a : A) :
  V a -> yields vp P V 0 0 (ret a).
Proof.
  intros HV w Hf Hv. cbn. split; [exact Hf|]. split; [exact Hv|]. split.
  - exists []. split; [reflexivity|constructor].
  - split; [lia|]. split; [exact HV|lia].
Qed.

Lemma yields_weaken (vp : option (Z * Z)) (P P' : Event -> Prop) {A}
    (V V' : A -> Prop) (lo lo' hi hi' : nat) (m : M A) :
  yields vp P V lo hi m ->
  (forall e, P e -> P' e) -> (forall a, V a -> V' a) ->
  (lo' <= lo)%nat -> (hi <= hi')%nat ->
  yields vp P' V' lo' hi' m.
Proof.
  intros Hm HP HV Hlo Hhi w Hf Hv.
  destruct (Hm w Hf Hv) as (Hf1 & Hv1 & (new & He & Hall) & Hix & Ho).
  split; [exact Hf1|]. split; [exact Hv1|]. split.
  - exists new. split; [exact He|]. eapply Forall_impl; eauto.
  - split; [lia|]. destruct (fst (m w)); [|exact I].
    destruct Ho as [Ha Hl]. split; [auto|lia].
Qed.

Lemma yields_bind (vp : option (Z * Z)) (P : Event -> Prop) {A B}
    (V1 : A -> Prop) (V2 : B -> Prop) (lo1 hi1 lo2 hi2 : nat)
    (m : M A) (k : A -> M B) :
  yields vp P V1 lo1 hi1 m ->
  (forall a, V1 a -> yields vp P V2 lo2 hi2 (k a)) ->
  yields vp P V2 (lo1 + lo2) (hi1 + hi2) (bind m k).
Proof.
  intros Hm Hk w Hf Hv. unfold bind.
  destruct (Hm w Hf Hv) as (Hf1 & Hv1 & (new1 & He1 & HP1) & Hix1 & Ho1).
  destruct (m w) as [[a|e] w1]; cbn [fst snd] in *.
  - destruct Ho1 as [HV1 Hlo1].
    destruct (Hk a HV1 w1 Hf1 Hv1)
      as (Hf2 & Hv2 & (new2 & He2 & HP2) & Hix2 & Ho2).
    split; [exact Hf2|]. split; [exact Hv2|]. split.
    + exists (new2 ++ new1). rewrite He2, He1, app_assoc.
      split; [reflexivity|]. apply Forall_app. auto.
    + split; [lia|]. destruct (fst (k a w1)); [|exact I].
      destruct Ho2 as [HV2 Hlo2]. split; [exact HV2|lia].
  - split; [exact Hf1|]. split; [exact Hv1|]. split; [eauto|].
    split; [lia|exact I].
Qed.

Lemma yields_random (vp : option (Z * Z)) (P : Event -> Prop) :
  yields vp P unit_interval 0 0 Math_random.
Proof.
  intros w Hf Hv. cbn. split; [exact Hf|]. split; [exact Hv|]. split.
  - exists []. split; [reflexivity|constructor].
  - split; [lia|]. split; [apply Hf|lia].
Qed.

Lemma yields_viewport (vp : option (Z * Z)) (P : Event -> Prop) :
  yields vp P (fun v => v = vp) 0 0 page_viewportSize.
Proof.
  intros w Hf Hv. cbn. split; [exact Hf|]. split; [exact Hv|]. split.
  - exists []. split; [reflexivity|constructor].
  - split; [lia|]. split; [exact Hv|lia].
Qed.

Lemma yields_sleep (vp : option (Z * Z)) (P : Event -> Prop) (ms : Z) :
  P (Sleep ms) -> yields vp P (fun _ => True) 0 0 (sleep ms).
Proof.
  intros HP w Hf Hv. cbn. split; [exact Hf|]. split; [exact Hv|]. split.
  - exists [Sleep ms]. split; [reflexivity|]. constructor; [exact HP|constructor].
  - split; [lia|]. split; [exact I|lia].
Qed.

Lemma yields_randomDelay (vp : option (Z * Z)) (P : Event -> Prop)
    (min max : Z) :
  min <= max -> (forall d, min <= d <= max -> P (Sleep d)) ->
  yields vp P (fun _ => True) 0 0 (randomDelay min max).
Proof.
  intros Hle HP. unfold randomDelay.
  change 0%nat with (0 + 0)%nat.
  eapply yields_bind; [apply yields_random|]. intros r Hr.
  apply yields_sleep. apply HP.
  pose proof (floor_scaled_range r (max - min + 1) Hr). lia.
Qed.

Lemma yields_page_action (vp : option (Z * Z)) (P : Event -> Prop)
    (e : Event) :
  P e -> P (Rejected e) -> yields vp P (fun _ => True) 1 1 (page_action e).
Proof.
  intros He Hr w Hf Hv. unfold page_action.
  destruct (page_fault w (page_ix w)); cbn;
    (split; [exact Hf|]; split; [exact Hv|]; split;
     [eexists [_]; split; [reflexivity|]; constructor; [auto|constructor]|]).
  - split; [lia|exact I].
  - split; [lia|]. split; [exact I|lia].
Qed.

Lemma yields_repeatM (vp : option (Z * Z)) (P : Event -> Prop)
    (lo hi n : nat) (body : M unit) :
  yields vp P (fun _ => True) lo hi body ->
  yields vp P (fun _ => True) (n * lo) (n * hi) (repeatM n body).
Proof.
  intros Hb. induction n as [|n IH]; cbn [repeatM].
  - apply yields_ret. exact I.
  - change (S n * lo)%nat with (lo + n * lo)%nat.
    change (S n * hi)%nat with (hi + n * hi)%nat.
    eapply yields_bind; [exact Hb|]. intros _ _. exact IH.
Qed.

Lemma yields_collectM (vp : option (Z * Z)) (P : Event -> Prop) {A}
    (V : A -> Prop) (n : nat) (item : M A) :
  yields vp P V 0 0 item ->
  yields vp P (fun l => Forall V l /\ length l = n) 0 0 (collectM n item).
Proof.
  intros Hi. induction n as [|n IH]; cbn [collectM].
  - apply yields_ret. split; [constructor|reflexivity].
  - change 0%nat with (0 + (0 + 0))%nat.
    eapply yields_bind; [exact Hi|]. intros a Ha.
    eapply yields_bind; [exact IH|]. intros rest [Hrest Hlen].
    apply yields_ret. split; [constructor; assumption|cbn; lia].
Qed.

Lemma yields_forM (vp : option (Z * Z)) (P : Event -> Prop) {A}
    (V : A -> Prop) (lo hi : nat) (xs : list A) (body : A -> M unit) :
  Forall V xs ->
  (forall x, V x -> yields vp P (fun _ => True) lo hi (body x)) ->
  yields vp P (fun _ => True) (length xs * lo) (length xs * hi)
    (forM xs body).
Proof.
  intros Hxs Hb. induction Hxs as [|x xs Hx _ IH]; cbn [forM].
  - apply yields_ret. exact I.
  - change (length (x :: xs) * lo)%nat with (lo + length xs * lo)%nat.
    change (length (x :: xs) * hi)%nat with (hi + length xs * hi)%nat.
    eapply yields_bind; [apply Hb, Hx|]. intros _ _. exact IH.
Qed.

(** A random point of a side lies in its middle four fifths. *)
Lemma central_coordinate_inside (size : Z) (r : Q) :
  0 < size -> unit_interval r ->
  inside size
    (inject_Z (Math_floor (r * inject_Z size * (8 # 10)))
     + inject_Z size * (1 # 10))%Q.
Proof.
  intros Hsize [Hlo Hhi]. unfold inside, Math_floor.
  assert (Hs : (0 < inject_Z size)%Q).
  { change 0%Q with (inject_Z 0). rewrite <- Zlt_Qlt. exact Hsize. }
  set (q := (r * inject_Z size * (8 # 10))%Q).
  assert (Hq0 : (0 <= q)%Q).
  { unfold q. apply Qmult_le_0_compat; [|discriminate].
    apply Qmult_le_0_compat; [exact Hlo|apply Qlt_le_weak, Hs]. }
  assert (Hq1 : (q < inject_Z size * (8 # 10))%Q).
  { unfold q. apply Qmult_lt_compat_r; [reflexivity|].
    rewrite <- (Qmult_1_l (inject_Z size)) at 2.
    apply Qmult_lt_compat_r; assumption. }
  assert (Hf0 : (0 <= inject_Z (Qfloor q))%Q).
  { change 0%Q with (inject_Z 0). rewrite <- Zle_Qle.
    rewrite <- (Qfloor_Z 0). apply Qfloor_resp_le. exact Hq0. }
  pose proof (Qfloor_le q) as Hf1.
  split; lra.
Qed.

Lemma yields_central_coordinate (vp : option (Z * Z)) (P : Event -> Prop)
    (size : Z) :
  0 < size -> yields vp P (inside size) 0 0 (central_coordinate size).
Proof.
  intros Hsize. unfold central_coordinate. change 0%nat with (0 + 0)%nat.
  eapply yields_bind; [apply yields_random|]. intros r Hr.
  apply yields_ret. apply central_coordinate_inside; assumption.
Qed.

Lemma yields_simulateMouseMovement (width height : Z) :
  0 < width -> 0 < height ->
  yields (Some (width, height)) (movement_event width height)
    (fun _ => True) 3 5 simulateMouseMovement.
Proof.
  intros Hw Hh w Hf Hv.
  set (r := rand w (rand_ix w)).
  assert (Hr : unit_interval r) by apply Hf.
  pose proof (floor_scaled_range r 3 Hr eq_refl) as Hn.
  change (inject_Z 3) with 3%Q in Hn.
  set (n := Z.to_nat (3 + Math_floor (r * 3))).
  assert (Hn3 : (3 <= n <= 5)%nat) by (subst n; lia).
  set (rest :=
    (points <- collectM n
                 (x <- central_coordinate width ;;
                  y <- central_coordinate height ;;
                  ret (x, y)) ;;
     forM points (fun point =>
       r <- Math_random ;;
       page_mouse_move (fst point) (snd point)
         (10 + Math_floor (r * 10)) ;;;
       randomDelay 100 300))).
  assert (Hbody :
    yields (Some (width, height)) (movement_event width height)
      (fun _ => True) (0 + n * 1) (0 + n * 1) rest).
  { eapply yields_bind.
    - apply (yields_collectM _ _
               (fun p => inside width (fst p) /\ inside height (snd p))).
      change 0%nat with (0 + (0 + 0))%nat.
      eapply yields_bind; [apply yields_central_coordinate, Hw|].
      intros x Hx.
      eapply yields_bind; [apply yields_central_coordinate, Hh|].
      intros y Hy. apply yields_ret. split; assumption.
    - intros points [Hpts Hlen]. rewrite <- Hlen.
      apply (yields_forM _ _ _ _ _ _ _ Hpts). intros [x y] [Hx Hy].
      change 1%nat with (0 + (1 + 0))%nat.
      eapply yields_bind; [apply yields_random|]. intros r1 Hr1.
      pose proof (floor_scaled_range r1 10 Hr1 eq_refl) as Hs.
      change (inject_Z 10) with 10%Q in Hs.
      eapply yields_bind.
      + apply yields_page_action;
          (split; [exact Hx|]; split; [exact Hy|]; lia).
      + intros _ _. apply yields_randomDelay; [lia|]. intros d Hd. exact Hd. }
  assert (Heq : simulateMouseMovement w = rest (snd (Math_random w))).
  { unfold simulateMouseMovement. unfold bind at 1.
    unfold page_viewportSize. rewrite Hv. reflexivity. }
  rewrite Heq.
  destruct (Hbody (snd (Math_random w)) Hf Hv)
    as (Hf1 & Hv1 & Hnew & Hix & Ho).
  split; [exact Hf1|]. split; [exact Hv1|]. split; [exact Hnew|].
  change (page_ix (snd (Math_random w))) with (page_ix w) in *.
  split; [lia|]. destruct (fst _); [|exact I].
  destruct Ho as [_ Hlo]. split; [exact I|lia].
Qed.

Lemma yields_throw (vp : option (Z * Z)) (P : Event -> Prop) {A}
    (V : A -> Prop) (lo : nat) (e : JsError) :
  yields vp P V lo 0 (@throw A e).
Proof.
  intros w Hf Hv. cbn. split; [exact Hf|]. split; [exact Hv|]. split.
  - exists []. split; [reflexivity|constructor].
  - split; [lia|exact I].
Qed.

Lemma yields_humanScroll (vp : option (Z * Z)) :
  yields vp scroll_event (fun _ => True) 2 8 humanScroll.
Proof.
  intros w Hf Hv.
  set (r := rand w (rand_ix w)).
  assert (Hr : unit_interval r) by apply Hf.
  pose proof (floor_scaled_range r 3 Hr eq_refl) as Hn.
  change (inject_Z 3) with 3%Q in Hn.
  set (n := Z.to_nat (2 + Math_floor (r * 3))).
  assert (Hn3 : (2 <= n <= 4)%nat) by (subst n; lia).
  set (burst :=
    (r <- Math_random ;;
     let scrollAmount := 100 + Math_floor (r * 300) in
     page_mouse_wheel 0 (inject_Z scrollAmount) ;;;
     randomDelay 500 1500 ;;;
     r <- Math_random ;;
     if Qlt_le_dec (7 # 10) r
     then page_mouse_wheel 0 (- inject_Z scrollAmount / 2)%Q ;;;
          randomDelay 300 800
     else ret tt)).
  assert (Hburst : yields vp scroll_event (fun _ => True)
                     (0 + (1 + (0 + (0 + 0)))) (0 + (1 + (0 + (0 + 1))))
                     burst).
  { eapply yields_bind; [apply yields_random|]. intros r1 Hr1. cbv zeta.
    pose proof (floor_scaled_range r1 300 Hr1 eq_refl) as Ha.
    change (inject_Z 300) with 300%Q in Ha.
    assert (Hturn : forall dy,
              dy = inject_Z (100 + Math_floor (r1 * 300)) \/
              dy = (- inject_Z (100 + Math_floor (r1 * 300)) / 2)%Q ->
              scroll_turn 0 dy).
    { intros dy Hdy. split; [reflexivity|].
      exists (100 + Math_floor (r1 * 300)). split; [lia|exact Hdy]. }
    eapply yields_bind.
    { apply yields_page_action; apply Hturn; left; reflexivity. }
    intros _ _.
    eapply yields_bind.
    { apply yields_randomDelay; [lia|]. intros d Hd. cbn. lia. }
    intros _ _.
    eapply yields_bind; [apply yields_random|]. intros r2 Hr2.
    destruct (Qlt_le_dec (7 # 10) r2).
    - eapply yields_weaken with (lo := (1 + 0)%nat) (hi := (1 + 0)%nat);
        [|intros e He; exact He|intros a Ha'; exact Ha'|lia|lia].
      eapply yields_bind.
      + apply yields_page_action; apply Hturn; right; reflexivity.
      + intros _ _. apply yields_randomDelay; [lia|]. intros d Hd. cbn. lia.
    - eapply yields_weaken with (lo := 0%nat) (hi := 0%nat);
        [|intros e He; exact He|intros a Ha'; exact Ha'|lia|lia].
      apply yields_ret. exact I. }
  assert (Heq : humanScroll w = repeatM n burst (snd (Math_random w)))
    by reflexivity.
  rewrite Heq.
  destruct (yields_repeatM vp scroll_event 1 2 n burst Hburst
              (snd (Math_random w)) Hf Hv)
    as (Hf1 & Hv1 & Hnew & Hix & Ho).
  split; [exact Hf1|]. split; [exact Hv1|]. split; [exact Hnew|].
  change (page_ix (snd (Math_random w))) with (page_ix w) in *.
  split; [lia|]. destruct (fst _); [|exact I].
  destruct Ho as [_ Hlo]. split; [exact I|lia].
Qed.

Lemma movement_event_idle (width height : Z) (e : Event) :
  movement_event width height e -> idle_event width height e.
Proof.
  destruct e as [x y s|dx dy|x y|key|ms|msg|msg|msg|e']; cbn;
    try tauto; try lia.
  destruct e'; cbn; tauto.
Qed.

Lemma scroll_event_idle (width height : Z) (e : Event) :
  scroll_event e -> idle_event width height e.
Proof.
  destruct e as [x y s|dx dy|x y|key|ms|msg|msg|msg|e']; cbn;
    try tauto; try lia.
  destruct e'; cbn; tauto.
Qed.

Lemma yields_random_click (width height : Z) :
  0 < width -> 0 < height ->
  yields (Some (width, height)) (idle_event width height)
    (fun _ => True) 1 1 random_click.
Proof.
  intros Hw Hh. unfold random_click.
  change 1%nat with (0 + (0 + (0 + 1)))%nat.
  eapply yields_bind; [apply yields_viewport|]. intros vp ->.
  eapply yields_bind; [apply yields_central_coordinate, Hw|]. intros x Hx.
  eapply yields_bind; [apply yields_central_coordinate, Hh|]. intros y Hy.
  apply yields_page_action; split; assumption.
Qed.

Lemma yields_actions (width height : Z) :
  0 < width -> 0 < height ->
  Forall (yields (Some (width, height)) (idle_event width height)
            (fun _ => True) 1 8) actions.
Proof.
  intros Hw Hh. unfold actions.
  constructor.
  { eapply yields_weaken;
      [apply (yields_simulateMouseMovement width height Hw Hh)
      |apply movement_event_idle|auto|lia|lia]. }
  constructor.
  { eapply yields_weaken;
      [apply yields_humanScroll|apply scroll_event_idle|auto|lia|lia]. }
  constructor.
  { eapply yields_weaken
      with (P := idle_event width height) (lo := 1%nat) (hi := 1%nat);
      [apply yields_page_action; left; reflexivity|auto|auto|lia|lia]. }
  constructor.
  { eapply yields_weaken
      with (P := idle_event width height) (lo := 1%nat) (hi := 1%nat);
      [apply yields_page_action; right; reflexivity|auto|auto|lia|lia]. }
  constructor.
  { eapply yields_weaken;
      [apply (yields_random_click width height Hw Hh)|auto|auto|lia|lia]. }
  constructor.
Qed.

Lemma yields_simulateRealisticBehavior (width height : Z) :
  0 < width -> 0 < height ->
  yields (Some (width, height)) (idle_event width height)
    (fun _ => True) 1 24 simulateRealisticBehavior.
Proof.
  intros Hw Hh w Hf Hv.
  set (r := rand w (rand_ix w)).
  assert (Hr : unit_interval r) by apply Hf.
  pose proof (floor_scaled_range r 3 Hr eq_refl) as Hn.
  change (inject_Z 3) with 3%Q in Hn.
  set (n := Z.to_nat (1 + Math_floor (r * 3))).
  assert (Hn3 : (1 <= n <= 3)%nat) by (subst n; lia).
  set (round :=
    (r <- Math_random ;;
     match js_index actions
             (Math_floor (r * inject_Z (Z.of_nat (length actions)))) with
     | Some action => action
     | None => throw TypeError
     end ;;;
     randomDelay 500 2000)).
  assert (Hround :
    yields (Some (width, height)) (idle_event width height)
      (fun _ => True) (0 + (1 + 0)) (0 + (8 + 0)) round).
  { eapply yields_bind; [apply yields_random|]. intros r1 Hr1.
    eapply yields_bind.
    - destruct (js_index actions _) as [action|] eqn:Ha.
      + apply js_index_elem in Ha.
        pose proof (yields_actions width height Hw Hh) as Hall.
        rewrite Forall_forall in Hall. apply Hall, Ha.
      + eapply yields_weaken
          with (P := idle_event width height) (V := fun _ => True)
               (lo := 1%nat) (hi := 0%nat);
          [apply yields_throw|auto|auto|lia|lia].
    - intros _ _. apply yields_randomDelay; [lia|]. intros d Hd. cbn. lia. }
  assert (Heq : simulateRealisticBehavior w
                = repeatM n round (snd (Math_random w))) by reflexivity.
  rewrite Heq.
  destruct (yields_repeatM _ _ 1 8 n round Hround
              (snd (Math_random w)) Hf Hv)
    as (Hf1 & Hv1 & Hnew & Hix & Ho).
  split; [exact Hf1|]. split; [exact Hv1|]. split; [exact Hnew|].
  change (page_ix (snd (Math_random w))) with (page_ix w) in *.
  split; [lia|]. destruct (fst _); [|exact I].
  destruct Ho as [_ Hlo]. split; [exact I|lia].
Qed.

(** X16. On a viewport of [width] by [height], [simulateMouseMovement]
    only moves the pointer to points strictly inside the viewport, in 10 to
    19 steps, and pauses 100 to 300 after a move.  It makes at most five
    moves, and at least three when it returns. *)
Theorem mouse_movement_within_bounds (w : World) (width height : Z) :
  fair w -> viewport w = Some (width, height) ->
  0 < width -> 0 < height ->
  (exists new,
     events (snd (simulateMouseMovement w)) = new ++ events w /\
     Forall (movement_event width height) new) /\
  (page_ix (snd (simulateMouseMovement w)) <= page_ix w + 5)%nat /\
  (fst (simulateMouseMovement w) = Ret tt ->
   (page_ix w + 3 <= page_ix (snd (simulateMouseMovement w)))%nat).
Proof.
  intros Hf Hv Hw Hh.
  destruct (yields_simulateMouseMovement width height Hw Hh w Hf Hv)
    as (_ & _ & Hnew & Hix & Ho).
  split; [exact Hnew|]. split; [lia|]. intros Hret. rewrite Hret in Ho.
  apply Ho.
Qed.

Lemma mouse_movement_within_bounds_witness :
  (exists new,
     events (snd (simulateMouseMovement varying_world))
       = new ++ events varying_world /\
     Forall (movement_event 1280 720) new) /\
  (page_ix (snd (simulateMouseMovement varying_world))
   <= page_ix varying_world + 5)%nat /\
  (fst (simulateMouseMovement varying_world) = Ret tt ->
   (page_ix varying_world + 3
    <= page_ix (snd (simulateMouseMovement varying_world)))%nat).
Proof.
  apply (mouse_movement_within_bounds varying_world 1280 720);
    try reflexivity.
  intros [|k]; apply unit_interval_check; reflexivity.
Defined.

(** X17. [humanScroll] only turns the wheel down by a whole amount from 100
    to 399 or back up by half of such an amount, never sideways, and pauses
    300 to 1500 after a turn.  It makes at most eight turns, and at least
    two when it returns. *)
Theorem scroll_within_bounds (w : World) :
  fair w ->
  (exists new,
     events (snd (humanScroll w)) = new ++ events w /\
     Forall scroll_event new) /\
  (page_ix (snd (humanScroll w)) <= page_ix w + 8)%nat /\
  (fst (humanScroll w) = Ret tt ->
   (page_ix w + 2 <= page_ix (snd (humanScroll w)))%nat).
Proof.
  intros Hf.
  destruct (yields_humanScroll (viewport w) w Hf eq_refl)
    as (_ & _ & Hnew & Hix & Ho).
  split; [exact Hnew|]. split; [lia|]. intros Hret. rewrite Hret in Ho.
  apply Ho.
Qed.

Lemma scroll_within_bounds_witness :
  (exists new,
     events (snd (humanScroll no_viewport_world))
       = new ++ events no_viewport_world /\
     Forall scroll_event new) /\
  (page_ix (snd (humanScroll no_viewport_world))
   <= page_ix no_viewport_world + 8)%nat /\
  (fst (humanScroll no_viewport_world) = Ret tt ->
   (page_ix no_viewport_world + 2
    <= page_ix (snd (humanScroll no_viewport_world)))%nat).
Proof.
  apply (scroll_within_bounds no_viewport_world).
  apply (fair_constant no_viewport_world (9 # 10)); reflexivity.
Defined.

(** X18. On a viewport of [width] by [height],
    [simulateRealisticBehavior] only adds pointer moves and clicks strictly
    inside the viewport, wheel turns as [humanScroll] makes them, presses
    of Tab or Escape, and pauses of 100 to 2000.  It attempts at most 24
    input actions, and at least one when it returns. *)
Theorem idle_activity_within_bounds (w : World) (width height : Z) :
  fair w -> viewport w = Some (width, height) ->
  0 < width -> 0 < height ->
  (exists new,
     events (snd (simulateRealisticBehavior w)) = new ++ events w /\
     Forall (idle_event width height) new) /\
  (page_ix (snd (simulateRealisticBehavior w)) <= page_ix w + 24)%nat /\
  (fst (simulateRealisticBehavior w) = Ret tt ->
   (page_ix w + 1 <= page_ix (snd (simulateRealisticBehavior w)))%nat).
Proof.
  intros Hf Hv Hw Hh.
  destruct (yields_simulateRealisticBehavior width height Hw Hh w Hf Hv)
    as (_ & _ & Hnew & Hix & Ho).
  split; [exact Hnew|]. split; [lia|]. intros Hret. rewrite Hret in Ho.
  apply Ho.
Qed.

Lemma idle_activity_within_bounds_witness :
  (exists new,
     events (snd (simulateRealisticBehavior varying_world))
       = new ++ events varying_world /\
     Forall (idle_event 1280 720) new) /\
  (page_ix (snd (simulateRealisticBehavior varying_world))
   <= page_ix varying_world + 24)%nat /\
  (fst (simulateRealisticBehavior varying_world) = Ret tt ->
   (page_ix varying_world + 1
    <= page_ix (snd (simulateRealisticBehavior varying_world)))%nat).
Proof.
  apply (idle_activity_within_bounds varying_world 1280 720);
    try reflexivity.
  intros [|k]; apply unit_interval_check; reflexivity.
Defined.

(** ** Scripted page operations *)

(** On an open page an operation is performed and the page stays open. *)
Lemma perform_open (op : PageOp) (b : Browser) :
  page_stays_open b ->
  perform op b =
    (Ret tt,
     mkBrowser (next_action (world b)) (scrollHeights b) (heights_ix b)
       (visible b) (Done op :: script b)).
Proof. intros Hopen. unfold perform. rewrite Hopen. reflexivity. Qed.

Lemma randomDelay_run (min max : Z) (w : World) :
  fair w -> min <= max ->
  exists d w',
    randomDelay min max w = (Ret tt, w') /\
    events w' = Sleep d :: events w /\ min <= d <= max /\
    rand w' = rand w /\ page_fault w' = page_fault w /\
    page_ix w' = page_ix w.
Proof.
  destruct w as [clk rnd ri lt li vp pf pi fs lim br ev].
  unfold fair. world_fields. intros Hfair Hle. run_monad.
  pose proof (floor_scaled_range (rnd ri) (max - min + 1) (Hfair _)) as Hfl.
  eexists _, _. split; [reflexivity|]. world_fields.
  split; [reflexivity|]. repeat split; lia.
Qed.

(** A pause of the host run in the browser adds one line to the script. *)
Lemma lift_randomDelay (min max : Z) (b : Browser) :
  fair (world b) -> min <= max ->
  exists d b',
    lift (randomDelay min max) b = (Ret tt, b') /\
    script b' = Host (Sleep d) :: script b /\ min <= d <= max /\
    fair (world b') /\
    (page_stays_open b -> page_stays_open b') /\
    scrollHeights b' = scrollHeights b /\ heights_ix b' = heights_ix b /\
    visible b' = visible b.
Proof.
  intros Hfair Hle.
  destruct (randomDelay_run min max (world b) Hfair Hle)
    as (d & w' & Hrun & Hev & Hd & Hrand & Hpf & _).
  exists d. unfold lift. rewrite Hrun. eexists. split; [reflexivity|].
  cbn [script world scrollHeights heights_ix visible]. rewrite Hev.
  replace (length (Sleep d :: events (world b)) - length (events (world b)))%nat
    with 1%nat by (cbn [length]; lia).
  split; [reflexivity|]. split; [exact Hd|]. split.
  - intros k. rewrite Hrand. apply Hfair.
  - split; [|auto]. intros Hopen k. unfold page_stays_open in *.
    cbn [world]. rewrite Hpf. apply Hopen.
Qed.

(** The characters of a text spell the text. *)
Lemma typing_loop (cs : list string) :
  forall b,
    fair (world b) -> page_stays_open b ->
    exists ps b',
      forB cs (fun char =>
                 page_keyboard_type char ;;~ lift (randomDelay 50 150)) b
        = (Ret tt, b') /\
      length ps = length cs /\
      Forall (fun d => 50 <= d <= 150) ps /\
      script b' = rev (keystrokes cs ps) ++ script b.
Proof.
  induction cs as [|c cs IH]; intros b Hfair Hopen.
  - exists [], b. repeat split. constructor.
  - cbn [forB]. unfold bindB at 1. unfold bindB at 1.
    unfold page_keyboard_type. rewrite (perform_open _ b Hopen).
    set (b1 := mkBrowser _ _ _ _ _).
    assert (Hfair1 : fair (world b1)) by exact Hfair.
    assert (Hopen1 : page_stays_open b1) by exact Hopen.
    destruct (lift_randomDelay 50 150 b1 Hfair1)
      as (d & b2 & Hrun & Hs & Hd & Hfair2 & Hopen2 & _); [lia|].
    rewrite Hrun.
    destruct (IH b2 Hfair2 (Hopen2 Hopen1)) as (ps & b3 & Hrest & Hlen & Hall & Hs3).
    exists (d :: ps), b3. split; [exact Hrest|].
    split; [cbn; lia|]. split; [constructor; assumption|].
    rewrite Hs3, Hs. cbn [keystrokes rev script b1].
    rewrite <- !app_assoc. reflexivity.
Qed.

(** X19. On an open page [humanType] clicks the field, clears it, and
    then types the code points of the text one by one and in order, pausing
    50 to 150 after each; it does nothing else to the page. *)
Theorem humanType_types_text (selector : string) (text : list string)
    (b : Browser) :
  fair (world b) -> page_stays_open b ->
  exists ps b',
    humanType selector text b = (Ret tt, b') /\
    length ps = length text /\
    Forall (fun d => 50 <= d <= 150) ps /\
    script b' =
      rev (Done (Click selector) :: Done (Fill selector EmptyString)
           :: keystrokes text ps) ++ script b.
Proof.
  intros Hfair Hopen. unfold humanType, page_click, page_fill.
  unfold bindB at 1. rewrite (perform_open _ b Hopen).
  set (b1 := mkBrowser _ _ _ _ _).
  assert (Hopen1 : page_stays_open b1) by exact Hopen.
  unfold bindB at 1. rewrite (perform_open _ b1 Hopen1).
  set (b2 := mkBrowser _ _ _ _ _).
  assert (Hfair2 : fair (world b2)) by exact Hfair.
  assert (Hopen2 : page_stays_open b2) by exact Hopen.
  destruct (typing_loop text b2 Hfair2 Hopen2)
    as (ps & b3 & Hrun & Hlen & Hall & Hs).
  exists ps, b3. split; [exact Hrun|]. split; [exact Hlen|].
  split; [exact Hall|].
  rewrite Hs. cbn [rev script b2 b1]. rewrite <- !app_assoc. reflexivity.
Qed.

Lemma humanType_types_text_witness :
  exists ps b',
    humanType "#username" ["a"; "g"; "e"; "n"; "t"; "7"] sample_browser
      = (Ret tt, b') /\
    length ps = length ["a"; "g"; "e"; "n"; "t"; "7"] /\
    Forall (fun d => 50 <= d <= 150) ps /\
    script b' =
      rev (Done (Click "#username") :: Done (Fill "#username" EmptyString)
           :: keystrokes ["a"; "g"; "e"; "n"; "t"; "7"] ps)
      ++ script sample_browser.
Proof.
  apply (humanType_types_text "#username" ["a"; "g"; "e"; "n"; "t"; "7"]
           sample_browser).
  - apply (fair_constant calm_world 0); reflexivity.
  - intros k. reflexivity.
Defined.

Lemma scroll_count_cons (st : Step) (s : list Step) :
  scroll_count (st :: s) =
  ((match st with
    | Done ScrollToEnd | Failed ScrollToEnd => 1
    | _ => 0
    end) + scroll_count s)%nat.
Proof.
  unfold scroll_count. cbn [List.filter].
  destruct st as [[]|[]|]; reflexivity.
Qed.

(** One round on an open page. *)
Lemma scroll_round_open (b : Browser) :
  page_stays_open b ->
  exists b1,
    (evaluate_scrollToEnd ;;~ page_waitForTimeout 2000 ;;~
     evaluate_scrollHeight) b
      = (Ret (scrollHeights b (heights_ix b)), b1) /\
    page_stays_open b1 /\
    scrollHeights b1 = scrollHeights b /\
    heights_ix b1 = S (heights_ix b) /\
    script b1 =
      Done ReadScrollHeight :: Done (WaitForTimeout 2000)
      :: Done ScrollToEnd :: script b.
Proof.
  intros Hopen. unfold evaluate_scrollToEnd, page_waitForTimeout,
    evaluate_scrollHeight.
  unfold bindB at 1. rewrite (perform_open _ b Hopen).
  set (b1 := mkBrowser _ _ _ _ _).
  assert (Hopen1 : page_stays_open b1) by exact Hopen.
  unfold bindB at 1. unfold bindB at 1. rewrite (perform_open _ b1 Hopen1).
  set (b2 := mkBrowser _ _ _ _ _).
  unfold lift, elapse. cbn [world b2].
  rewrite Nat.sub_diag. cbn [take map app].
  set (b3 := mkBrowser _ _ _ _ _).
  assert (Hopen3 : page_stays_open b3) by exact Hopen.
  unfold bindB at 1. rewrite (perform_open _ b3 Hopen3).
  eexists. split; [reflexivity|]. repeat split. exact Hopen.
Qed.

Lemma scroll_rounds_stop (fuel : nat) :
  forall (k : nat) (previousHeight : Z) (b : Browser),
    page_stays_open b -> (k < fuel)%nat ->
    (forall j, (j < k)%nat ->
       scrollHeights b (heights_ix b + j)
       <> match j with O => previousHeight | S _ => height_before b j end) ->
    scrollHeights b (heights_ix b + k)
    = match k with O => previousHeight | S _ => height_before b k end ->
    exists b',
      scroll_rounds fuel previousHeight b = (Ret tt, b') /\
      heights_ix b' = (heights_ix b + S k)%nat /\
      scroll_count (script b') = (scroll_count (script b) + S k)%nat.
Proof.
  induction fuel as [|fuel IH]; intros k previousHeight b Hopen Hk Hdiff Hsame;
    [lia|].
  cbn [scroll_rounds].
  destruct (scroll_round_open b Hopen) as (b1 & Hrun & Hopen1 & Hh & Hix & Hs).
  assert (Hround :
    (evaluate_scrollToEnd ;;~ page_waitForTimeout 2000 ;;~
     currentHeight <~ evaluate_scrollHeight ;;
     (if currentHeight =? previousHeight
      then retB tt else scroll_rounds fuel currentHeight)) b
    = (if scrollHeights b (heights_ix b) =? previousHeight
       then retB tt
       else scroll_rounds fuel (scrollHeights b (heights_ix b))) b1).
  { revert Hrun. unfold bindB.
    destruct (evaluate_scrollToEnd b) as [[[]|e] c1]; [|discriminate].
    destruct (page_waitForTimeout 2000 c1) as [[[]|e] c2]; [|discriminate].
    intros ->. reflexivity. }
  rewrite Hround.
  assert (Hcount : scroll_count (script b1) = S (scroll_count (script b))).
  { rewrite Hs, !scroll_count_cons. reflexivity. }
  destruct k as [|k].
  - rewrite Nat.add_0_r in Hsame. rewrite Hsame, Z.eqb_refl.
    exists b1. split; [reflexivity|]. split; lia.
  - pose proof (Hdiff 0%nat ltac:(lia)) as H0. rewrite Nat.add_0_r in H0.
    apply Z.eqb_neq in H0. rewrite H0.
    destruct (IH k (scrollHeights b (heights_ix b)) b1 Hopen1 ltac:(lia))
      as (b' & Hrest & Hix' & Hcnt').
    + intros j Hj. rewrite Hh, Hix.
      replace (S (heights_ix b) + j)%nat with (heights_ix b + S j)%nat by lia.
      pose proof (Hdiff (S j) ltac:(lia)) as Hd. cbn [height_before] in Hd.
      destruct j as [|j]; [rewrite Nat.add_0_r in Hd; exact Hd|].
      unfold height_before. rewrite Hh, Hix.
      replace (S (heights_ix b) + j)%nat with (heights_ix b + S j)%nat by lia.
      exact Hd.
    + rewrite Hh, Hix.
      replace (S (heights_ix b) + k)%nat with (heights_ix b + S k)%nat by lia.
      cbn [height_before] in Hsame.
      destruct k as [|k]; [rewrite Nat.add_0_r in Hsame; exact Hsame|].
      unfold height_before. rewrite Hh, Hix.
      replace (S (heights_ix b) + k)%nat with (heights_ix b + S k)%nat by lia.
      exact Hsame.
    + exists b'. split; [exact Hrest|]. split; lia.
Qed.

(** X21. On an open page [scrollToBottom] stops with the first round that
    leaves the height as it was, the height before the first round being
    taken as 0: if that is round [k + 1], within [maxScrolls], it makes
    exactly [k + 1] rounds. *)
Theorem scrollToBottom_stops_when_stable
    (maxScrolls : Z) (k : nat) (b : Browser) :
  page_stays_open b -> (k < Z.to_nat maxScrolls)%nat ->
  (forall j, (j < k)%nat ->
     scrollHeights b (heights_ix b + j) <> height_before b j) ->
  scrollHeights b (heights_ix b + k) = height_before b k ->
  exists b',
    scrollToBottom maxScrolls b = (Ret tt, b') /\
    heights_ix b' = (heights_ix b + S k)%nat /\
    scroll_count (script b') = (scroll_count (script b) + S k)%nat.
Proof.
  intros Hopen Hk Hdiff Hsame. unfold scrollToBottom.
  apply (scroll_rounds_stop (Z.to_nat maxScrolls) k 0 b Hopen Hk).
  - intros j Hj. specialize (Hdiff j Hj). destruct j; exact Hdiff.
  - destruct k; exact Hsame.
Qed.

Lemma scrollToBottom_stops_when_stable_witness :
  exists b',
    scrollToBottom 10 sample_browser = (Ret tt, b') /\
    heights_ix b' = (heights_ix sample_browser + 4)%nat /\
    scroll_count (script b') = (scroll_count (script sample_browser) + 4)%nat.
Proof.
  apply (scrollToBottom_stops_when_stable 10 3 sample_browser).
  - intros k. reflexivity.
  - vm_compute. lia.
  - intros [|[|[|j]]] Hj; vm_compute; try discriminate. lia.
  - reflexivity.
Defined.

(** X22. [handleCookieConsent] never throws: whatever rejects, for
    whichever selector, is caught, and the function returns. *)
Theorem handleCookieConsent_never_throws (b : Browser) :
  exists b', handleCookieConsent b = (Ret tt, b').
Proof.
  unfold handleCookieConsent. generalize cookieSelectors. intros selectors.
  revert b. induction selectors as [|s rest IH]; intros b; cbn [consent_from].
  - exists b. reflexivity.
  - unfold bindB at 1, try_catchB.
    destruct (bindB (locator_isVisible s) _ b) as [[stop|e] b1].
    + destruct stop; [exists b1; reflexivity|apply IH].
    + cbn. apply IH.
Qed.

Lemma isVisible_open (selector : string) (b : Browser) :
  page_stays_open b ->
  locator_isVisible selector b =
    (Ret (visible b selector),
     mkBrowser (next_action (world b)) (scrollHeights b) (heights_ix b)
       (visible b) (Done (IsVisible selector) :: script b)).
Proof.
  intros Hopen. unfold locator_isVisible, bindB.
  rewrite (perform_open _ b Hopen). reflexivity.
Qed.

(** The loop on an open page: selectors that are not visible are only
    looked at. *)
Lemma consent_from_hidden (hidden rest : list string) :
  forall b,
    page_stays_open b ->
    Forall (fun p => visible b p = false) hidden ->
    exists b1,
      consent_from (hidden ++ rest) b = consent_from rest b1 /\
      page_stays_open b1 /\ visible b1 = visible b /\
      script b1 =
        rev (map (fun p => Done (IsVisible p)) hidden) ++ script b.
Proof.
  induction hidden as [|p hidden IH]; intros b Hopen Hall.
  - exists b. repeat split. exact Hopen.
  - apply Forall_cons in Hall as [Hp Hall].
    cbn [app consent_from]. unfold bindB at 1, try_catchB. unfold bindB at 1.
    rewrite (isVisible_open p b Hopen), Hp. unfold retB at 1.
    set (b1 := mkBrowser _ _ _ _ _).
    destruct (IH b1) as (b2 & Hrun & Hopen2 & Hvis & Hs);
      [exact Hopen|exact Hall|].
    exists b2. split; [exact Hrun|]. split; [exact Hopen2|].
    split; [exact Hvis|]. rewrite Hs. cbn [map rev script b1].
    rewrite <- app_assoc. reflexivity.
Qed.

(** X23. On an open page [handleCookieConsent] looks at its selectors in
    order, clicks the first whose element is visible, waits 1000 and stops
    looking; when none is visible it only looks at all ten. *)
Theorem handleCookieConsent_clicks_first_visible (b : Browser) :
  page_stays_open b ->
  (forall before s after,
     cookieSelectors = before ++ s :: after ->
     Forall (fun p => visible b p = false) before ->
     visible b s = true ->
     exists b',
       handleCookieConsent b = (Ret tt, b') /\
       script b' =
         rev (map (fun p => Done (IsVisible p)) before
              ++ [Done (IsVisible s); Done (LocatorClick s);
                  Done (WaitForTimeout 1000)])
         ++ script b) /\
  (Forall (fun p => visible b p = false) cookieSelectors ->
   exists b',
     handleCookieConsent b = (Ret tt, b') /\
     script b' =
       rev (map (fun p => Done (IsVisible p)) cookieSelectors) ++ script b).
Proof.
  intros Hopen. unfold handleCookieConsent. split.
  - intros before s after -> Hhidden Hs.
    destruct (consent_from_hidden before (s :: after) b Hopen Hhidden)
      as (b1 & Hrun & Hopen1 & Hvis & Hscript).
    rewrite Hrun. cbn [consent_from].
    unfold bindB at 1, try_catchB. unfold bindB at 1.
    rewrite (isVisible_open s b1 Hopen1), Hvis, Hs.
    set (b2 := mkBrowser _ _ _ _ _).
    assert (Hopen2 : page_stays_open b2) by exact Hopen1.
    unfold locator_click, page_waitForTimeout.
    unfold bindB at 1. rewrite (perform_open _ b2 Hopen2).
    set (b3 := mkBrowser _ _ _ _ _).
    assert (Hopen3 : page_stays_open b3) by exact Hopen1.
    unfold bindB at 1. unfold bindB at 1. rewrite (perform_open _ b3 Hopen3).
    unfold lift, elapse. cbn [world]. rewrite Nat.sub_diag.
    cbn [take map app]. unfold retB.
    eexists. split; [reflexivity|].
    cbn [script b3 b2]. rewrite Hscript, rev_app_distr. cbn [rev app].
    reflexivity.
  - intros Hhidden.
    destruct (consent_from_hidden cookieSelectors [] b Hopen Hhidden)
      as (b1 & Hrun & _ & _ & Hscript).
    rewrite app_nil_r in Hrun. rewrite Hrun. exists b1.
    split; [reflexivity|exact Hscript].
Qed.

Lemma handleCookieConsent_clicks_first_visible_witness :
  exists b',
    handleCookieConsent sample_browser = (Ret tt, b') /\
    script b' =
      rev (map (fun p => Done (IsVisible p)) (firstn 7 cookieSelectors)
           ++ [Done (IsVisible "text=Accept All");
               Done (LocatorClick "text=Accept All");
               Done (WaitForTimeout 1000)])
      ++ script sample_browser.
Proof.
  assert (Hopen : page_stays_open sample_browser) by (intros k; reflexivity).
  apply (proj1 (handleCookieConsent_clicks_first_visible sample_browser Hopen)
           (firstn 7 cookieSelectors) "text=Accept All"
           (skipn 8 cookieSelectors)).
  - reflexivity.
  - repeat constructor.
  - reflexivity.
Defined.

(** ** Screenshots *)

Lemma replace_colons_and_dots_clean (s : string) :
  includes (replace_colons_and_dots s) ":" = false /\
  includes (replace_colons_and_dots s) "." = false /\
  String.length (replace_colons_and_dots s) = String.length s.
Proof.
  induction s as [|c s (IH1 & IH2 & IH3)]; [repeat split|].
  cbn [replace_colons_and_dots includes String.prefix String.length].
  rewrite IH1, IH2, IH3.
  destruct (Ascii.eqb_spec c colon) as [->|Hc].
  - cbn [orb]. repeat split.
  - destruct (Ascii.eqb_spec c dot) as [->|Hd].
    + cbn [orb]. repeat split.
    + cbn [orb]. repeat split.
      * destruct (Ascii.ascii_dec _ c) as [E|_]; [|reflexivity].
        exfalso. apply Hc. symmetry. exact E.
      * destruct (Ascii.ascii_dec _ c) as [E|_]; [|reflexivity].
        exfalso. apply Hd. symmetry. exact E.
Qed.

Lemma replace_colons_and_dots_get (s : string) :
  forall (i : nat) (c : Ascii.ascii),
    String.get i s = Some c ->
    (c = colon \/ c = dot ->
     String.get i (replace_colons_and_dots s) = Some hyphen) /\
    (c <> colon -> c <> dot ->
     String.get i (replace_colons_and_dots s) = Some c).
Proof.
  induction s as [|a s IH]; intros i c Hget; [discriminate|].
  destruct i as [|i]; cbn [String.get replace_colons_and_dots] in *.
  - injection Hget as ->. split.
    + intros [->| ->]; reflexivity.
    + intros Hc Hd.
      destruct (Ascii.eqb_spec c colon) as [E|_]; [contradiction|].
      destruct (Ascii.eqb_spec c dot) as [E|_]; [contradiction|].
      reflexivity.
  - apply IH, Hget.
Qed.

(** X24. When the screenshot is taken, [takeTimestampedScreenshot] returns
    the path it was saved under, [./data/screenshots/<name>-<stamp>.png],
    where the stamp is the ISO time of the call with every colon and dot
    replaced by a hyphen: it has the length of the ISO time, a hyphen
    wherever the ISO time has a colon or a dot, the character of the ISO
    time everywhere else, and so no colon and no dot. *)
Theorem screenshot_path_is_safe (toISOString : Z -> string) (name : string)
    (b : Browser) :
  page_fault (world b) (page_ix (world b)) = false ->
  let iso := toISOString (time_at_entry (world b)) in
  exists stamp b',
    takeTimestampedScreenshot toISOString name b
      = (Ret ("./data/screenshots/" +:+ name +:+ "-" +:+ stamp +:+ ".png"),
         b') /\
    script b' =
      Done (Screenshot
              ("./data/screenshots/" +:+ name +:+ "-" +:+ stamp +:+ ".png")
              true) :: script b /\
    String.length stamp = String.length iso /\
    (forall i c,
       String.get i iso = Some c ->
       (c = colon \/ c = dot -> String.get i stamp = Some hyphen) /\
       (c <> colon -> c <> dot -> String.get i stamp = Some c)) /\
    includes stamp ":" = false /\
    includes stamp "." = false.
Proof.
  intros Hok iso.
  exists (replace_colons_and_dots iso). subst iso.
  unfold takeTimestampedScreenshot, page_screenshot.
  unfold bindB at 1. unfold lift at 1.
  destruct (Date_now (world b)) as [o w1] eqn:Hnow.
  assert (Hw1 : o = Ret (time_at_entry (world b)) /\
                events w1 = events (world b) /\
                page_fault w1 = page_fault (world b) /\
                page_ix w1 = page_ix (world b)).
  { unfold time_at_entry. rewrite Hnow. revert Hnow.
    unfold Date_now, bind, elapse. cbn. intros [= <- <-]. cbn. auto. }
  destruct Hw1 as (-> & Hev & Hpf & Hix).
  rewrite Hev, Nat.sub_diag. cbn [take map app].
  cbv zeta. unfold bindB at 1, perform. cbn [world script].
  rewrite Hpf, Hix, Hok. unfold retB.
  eexists. split; [reflexivity|]. split; [reflexivity|].
  destruct (replace_colons_and_dots_clean
              (toISOString (time_at_entry (world b)))) as (Hc & Hd & Hlen).
  split; [exact Hlen|]. split; [|split; assumption].
  apply replace_colons_and_dots_get.
Qed.

Lemma screenshot_path_is_safe_witness :
  let iso := (fun _ : Z => "2024-05-01T10:20:30.123Z")
               (time_at_entry (world sample_browser)) in
  exists stamp b',
    takeTimestampedScreenshot (fun _ => "2024-05-01T10:20:30.123Z")
      "search-land" sample_browser
      = (Ret ("./data/screenshots/" +:+ "search-land" +:+ "-" +:+ stamp
              +:+ ".png"), b') /\
    script b' =
      Done (Screenshot
              ("./data/screenshots/" +:+ "search-land" +:+ "-" +:+ stamp
               +:+ ".png") true) :: script sample_browser /\
    String.length stamp = String.length iso /\
    (forall i c,
       String.get i iso = Some c ->
       (c = colon \/ c = dot -> String.get i stamp = Some hyphen) /\
       (c <> colon -> c <> dot -> String.get i stamp = Some c)) /\
    includes stamp ":" = false /\
    includes stamp "." = false.
Proof.
  apply (screenshot_path_is_safe (fun _ => "2024-05-01T10:20:30.123Z")
           "search-land" sample_browser).
  reflexivity.
Defined.
